(** * HNAP session client of the D-Link sensor component

    A shallow embedding of [custom_components/binary_sensor/dlink.py]:
    the [_hmac] helper, the [HNAPClient] class ([login], [device_actions],
    [soap_actions], [call], [_update_nauth_token], [_client]) and the facts
    the specification states about them.

    Python strings are modelled by their UTF-8 bytes (Rocq [string]), so
    [encode('utf-8')] is the identity and concatenation is [++] on bytes.
    The coroutines are run sequentially ([yield from] is a plain call);
    [call] and [login] call each other without a bound in the source, so
    the embedding carries a fuel counter for the nesting depth. *)

From Stdlib Require Import ZArith List String Ascii Bool Lia DecimalString.
From stdpp Require Import base option list strings gmap.

Import ListNotations.
Local Open Scope Z_scope.
Local Open Scope string_scope.

(** ** MD5 (RFC 1321), the default digest of Python's [hmac.new] *)

Module MD5.
Local Open Scope list_scope.

Definition wrap32 (x : Z) : Z := x mod 2 ^ 32.
Definition add32 (x y : Z) : Z := wrap32 (x + y).
Definition not32 (x : Z) : Z := Z.lxor x 0xffffffff.
Definition rotl32 (x c : Z) : Z :=
  wrap32 (Z.lor (Z.shiftl x c) (Z.shiftr x (32 - c))).

Definition F (b c d : Z) : Z := Z.lor (Z.land b c) (Z.land (not32 b) d).
Definition G (b c d : Z) : Z := Z.lor (Z.land b d) (Z.land c (not32 d)).
Definition H (b c d : Z) : Z := Z.lxor b (Z.lxor c d).
Definition I (b c d : Z) : Z := Z.lxor c (Z.lor b (not32 d)).

Definition S_table : list Z :=
  [ 7; 12; 17; 22; 7; 12; 17; 22; 7; 12; 17; 22; 7; 12; 17; 22;
    5; 9; 14; 20; 5; 9; 14; 20; 5; 9; 14; 20; 5; 9; 14; 20;
    4; 11; 16; 23; 4; 11; 16; 23; 4; 11; 16; 23; 4; 11; 16; 23;
    6; 10; 15; 21; 6; 10; 15; 21; 6; 10; 15; 21; 6; 10; 15; 21 ].

Definition K_table : list Z :=
  [ 0xd76aa478; 0xe8c7b756; 0x242070db; 0xc1bdceee;
    0xf57c0faf; 0x4787c62a; 0xa8304613; 0xfd469501;
    0x698098d8; 0x8b44f7af; 0xffff5bb1; 0x895cd7be;
    0x6b901122; 0xfd987193; 0xa679438e; 0x49b40821;
    0xf61e2562; 0xc040b340; 0x265e5a51; 0xe9b6c7aa;
    0xd62f105d; 0x02441453; 0xd8a1e681; 0xe7d3fbc8;
    0x21e1cde6; 0xc33707d6; 0xf4d50d87; 0x455a14ed;
    0xa9e3e905; 0xfcefa3f8; 0x676f02d9; 0x8d2a4c8a;
    0xfffa3942; 0x8771f681; 0x6d9d6122; 0xfde5380c;
    0xa4beea44; 0x4bdecfa9; 0xf6bb4b60; 0xbebfbc70;
    0x289b7ec6; 0xeaa127fa; 0xd4ef3085; 0x04881d05;
    0xd9d4d039; 0xe6db99e5; 0x1fa27cf8; 0xc4ac5665;
    0xf4292244; 0x432aff97; 0xab9423a7; 0xfc93a039;
    0x655b59c3; 0x8f0ccc92; 0xffeff47d; 0x85845dd1;
    0x6fa87e4f; 0xfe2ce6e0; 0xa3014314; 0x4e0811a1;
    0xf7537e82; 0xbd3af235; 0x2ad7d2bb; 0xeb86d391 ].

(** The four chaining words A, B, C, D. *)
Record words := Words { wA : Z; wB : Z; wC : Z; wD : Z }.

Definition init : words :=
  Words 0x67452301 0xefcdab89 0x98badcfe 0x10325476.

Definition round_fun (i : nat) (b c d : Z) : Z :=
  if (i <? 16)%nat then F b c d
  else if (i <? 32)%nat then G b c d
  else if (i <? 48)%nat then H b c d
  else I b c d.

Definition msg_index (i : nat) : nat :=
  if (i <? 16)%nat then i
  else if (i <? 32)%nat then (5 * i + 1) mod 16
  else if (i <? 48)%nat then (3 * i + 5) mod 16
  else (7 * i) mod 16.

Definition step (m : list Z) (st : words) (i : nat) : words :=
  let f := round_fun i (wB st) (wC st) (wD st) in
  let f' := add32 (add32 (add32 f (wA st)) (nth i K_table 0))
                  (nth (msg_index i) m 0) in
  Words (wD st) (add32 (wB st) (rotl32 f' (nth i S_table 0)))
        (wB st) (wC st).

Definition compress (st : words) (m : list Z) : words :=
  let r := fold_left (step m) (seq 0 64) st in
  Words (add32 (wA st) (wA r)) (add32 (wB st) (wB r))
        (add32 (wC st) (wC r)) (add32 (wD st) (wD r)).

(** Little-endian conversions between bytes and 32-bit words. *)
Definition le_bytes (n : nat) (x : Z) : list Z :=
  map (fun k => Z.shiftr x (8 * Z.of_nat k) mod 256) (seq 0 n).

Fixpoint le_words (n : nat) (bs : list Z) : list Z :=
  match n with
  | O => []
  | S n' =>
      match bs with
      | b0 :: b1 :: b2 :: b3 :: rest =>
          (b0 + 256 * b1 + 65536 * b2 + 16777216 * b3) :: le_words n' rest
      | _ => []
      end
  end.

Definition pad (msg : list Z) : list Z :=
  let len := Z.of_nat (length msg) in
  msg ++ [128] ++ repeat 0 (Z.to_nat ((55 - len) mod 64))
      ++ le_bytes 8 ((8 * len) mod 2 ^ 64).

Fixpoint blocks (n : nat) (bs : list Z) : list (list Z) :=
  match n with
  | O => []
  | S n' => le_words 16 (firstn 64 bs) :: blocks n' (skipn 64 bs)
  end.

Definition digest_words (msg : list Z) : words :=
  let p := pad msg in
  fold_left compress (blocks (length p / 64) p) init.

Definition md5 (msg : list Z) : list Z :=
  let w := digest_words msg in
  le_bytes 4 (wA w) ++ le_bytes 4 (wB w)
    ++ le_bytes 4 (wC w) ++ le_bytes 4 (wD w).

End MD5.

(** ** HMAC (RFC 2104) over MD5, as [hmac.new(key, msg)] computes it *)

Module HMAC.
Local Open Scope list_scope.

Definition block_size : nat := 64.

Definition hmac_md5 (key msg : list Z) : list Z :=
  let key1 := if (block_size <? length key)%nat then MD5.md5 key else key in
  let key2 := key1 ++ repeat 0 (block_size - length key1) in
  let ipad := map (Z.lxor 0x36) key2 in
  let opad := map (Z.lxor 0x5c) key2 in
  MD5.md5 (opad ++ MD5.md5 (ipad ++ msg)).

End HMAC.

(** ** Python string operations used by the client *)

Module PyStr.

Definition encode (s : string) : list Z :=
  map (fun a => Z.of_N (N_of_ascii a)) (list_ascii_of_string s).

Definition hex_digit (d : Z) : ascii :=
  nth (Z.to_nat d)
      (list_ascii_of_string "0123456789abcdef") "0"%char.

(** [bytes.hex()]: two lower-case digits per byte. *)
Fixpoint hex (bs : list Z) : string :=
  match bs with
  | [] => EmptyString
  | b :: rest =>
      String (hex_digit (b / 16)) (String (hex_digit (b mod 16)) (hex rest))
  end.

Definition upper_char (a : ascii) : ascii :=
  let n := nat_of_ascii a in
  if ((97 <=? n) && (n <=? 122))%nat then ascii_of_nat (n - 32) else a.

Definition lower_char (a : ascii) : ascii :=
  let n := nat_of_ascii a in
  if ((65 <=? n) && (n <=? 90))%nat then ascii_of_nat (n + 32) else a.

(** [str.upper] and [str.lower] on the ASCII letters.  The client applies
    [upper] to hexadecimal digests only, and compares the result of
    [lower] with the ASCII literal ['success'], for which the byte-wise
    version agrees with Python's. *)
Fixpoint upper (s : string) : string :=
  match s with
  | EmptyString => EmptyString
  | String a s' => String (upper_char a) (upper s')
  end.

Fixpoint lower (s : string) : string :=
  match s with
  | EmptyString => EmptyString
  | String a s' => String (lower_char a) (lower s')
  end.

(** [s.rfind(c)] from position [i] on: the highest index of [c], or -1. *)
Fixpoint rfind_from (i : Z) (c : ascii) (s : string) : Z :=
  match s with
  | EmptyString => -1
  | String a s' =>
      let r := rfind_from (i + 1) c s' in
      if (0 <=? r)%Z then r else if Ascii.eqb a c then i else -1
  end.

Definition rfind (c : ascii) (s : string) : Z := rfind_from 0 c s.

(** [s[n:]] for [0 <= n]. *)
Fixpoint drop (n : nat) (s : string) : string :=
  match n, s with
  | O, _ => s
  | S n', String _ s' => drop n' s'
  | S _, EmptyString => EmptyString
  end.

(** Decimal rendering of an [int], as [str.format] prints it. *)
Definition dec (n : Z) : string := NilZero.string_of_int (Z.to_int n).

(** Python truthiness of an attribute that is [None] or a [str]. *)
Definition truthy (o : option string) : bool :=
  match o with
  | Some (String _ _) => true
  | _ => false
  end.

End PyStr.

(** ** Module constants and [_hmac] *)

Definition NAMESPACE : string := "http://purenetworks.com/HNAP1/".
Definition ACTION_BASE_URL : string := "http://purenetworks.com/HNAP1/".

Definition _hmac (key message : string) : string :=
  PyStr.upper (PyStr.hex (HMAC.hmac_md5 (PyStr.encode key) (PyStr.encode message))).
Arguments _hmac : simpl never.

(** ** Exceptions and results *)

(** The exception classes the client tells apart.  [HTTPError] is a
    subclass of [URLError]; [OtherError] stands for every class that no
    handler of the client names. *)
Inductive exn :=
| AttributeError
| ExpatError
| HTTPError
| URLError
| TypeError
| AuthenticationError (msg : string)
| OtherError (name : string).

(** The handlers of [call] (lines 114-121): the session-invalidation
    signals. *)
Definition is_session_signal (e : exn) : bool :=
  match e with
  | AttributeError | ExpatError | HTTPError | URLError => true
  | _ => false
  end.

Inductive res (A : Type) :=
| Val (a : A)
| Raise (e : exn)
| OutOfFuel.
Arguments Val {A} a.
Arguments Raise {A} e.
Arguments OutOfFuel {A}.

(** ** Parsed responses: the part of pysimplesoap's [SimpleXMLElement]
    the client uses *)

Module SimpleXML.
Local Open Scope list_scope.

(** An element with its tag name, the concatenation of its text nodes and
    its child elements.  Tags are compared as written (name spaces are
    not modelled). *)
#[warnings="-register-all"]
Inductive xml := Elem (tag : string) (text : string) (kids : list xml).

Definition tag (x : xml) : string := let 'Elem t _ _ := x in t.
Definition kids (x : xml) : list xml := let 'Elem _ _ k := x in k.

(** [str(x)]: the text of the element. *)
Definition str (x : xml) : string := let 'Elem _ t _ := x in t.

(** The descendants of an element in document order, as
    [getElementsByTagName] visits them. *)
Fixpoint descendants (x : xml) : list xml :=
  match x with
  | Elem _ _ ks =>
      (fix go (l : list xml) : list xml :=
         match l with
         | [] => []
         | k :: l' => k :: descendants k ++ go l'
         end) ks
  end.

Definition elements_by_tag (name : string) (x : xml) : list xml :=
  List.filter (fun e => String.eqb (tag e) name) (descendants x).

(** [name in x]: some descendant carries the tag. *)
Definition contains (name : string) (x : xml) : bool :=
  match elements_by_tag name x with
  | [] => false
  | _ :: _ => true
  end.

(** [x.name]: the first descendant with that tag; [AttributeError] when
    there is none. *)
Definition getattr (x : xml) (name : string) : exn + xml :=
  match elements_by_tag name x with
  | [] => inl AttributeError
  | e :: _ => inr e
  end.

(** [x.children()]: the child elements, or [None] when there are none. *)
Definition children (x : xml) : option (list xml) :=
  match kids x with
  | [] => None
  | ks => Some ks
  end.

End SimpleXML.
Export SimpleXML(xml, Elem).

(** ** The transport and the clock *)

Inductive pyval :=
| VStr (s : string)
| VInt (n : Z).

(** One remote call as [SoapClient] receives it: the location and headers
    given to its constructor, the method looked up on it and the arguments
    of the call. *)
Record request := Request {
  rq_location : string;
  rq_headers : gmap string string;
  rq_action : string;
  rq_args : list pyval;
  rq_kwargs : list (string * pyval)
}.

(** The device and the clock, over a world [W] that both may change:
    [invoke] is the remote call ([inl] for a raised exception), [now] is
    [int(datetime.now().timestamp())]. *)
Record Device (W : Type) := {
  invoke : request -> W -> (exn + xml) * W;
  now : W -> Z * W
}.
Arguments invoke {W} _ _ _.
Arguments now {W} _ _.

(** ** The client object *)

Record HNAPClient := Client {
  address : string;
  username : string;
  password : string;
  logged_in : bool;
  actions : option (list string);
  _private_key : option string;
  _cookie : option string;
  _auth_token : option string;
  _timestamp : option Z
}.

(** [HNAPClient.__init__] *)
Definition new_client (address username password : string) : HNAPClient :=
  {| address := address; username := username; password := password;
     logged_in := false; actions := None;
     _private_key := None; _cookie := None;
     _auth_token := None; _timestamp := None |}.

Definition set_logged_in (b : bool) (c : HNAPClient) : HNAPClient :=
  {| address := address c; username := username c; password := password c;
     logged_in := b; actions := actions c;
     _private_key := _private_key c; _cookie := _cookie c;
     _auth_token := _auth_token c; _timestamp := _timestamp c |}.

Definition set_actions (a : list string) (c : HNAPClient) : HNAPClient :=
  {| address := address c; username := username c; password := password c;
     logged_in := logged_in c; actions := Some a;
     _private_key := _private_key c; _cookie := _cookie c;
     _auth_token := _auth_token c; _timestamp := _timestamp c |}.

Definition set_cookie (ck : string) (c : HNAPClient) : HNAPClient :=
  {| address := address c; username := username c; password := password c;
     logged_in := logged_in c; actions := actions c;
     _private_key := _private_key c; _cookie := Some ck;
     _auth_token := _auth_token c; _timestamp := _timestamp c |}.

Definition set_private_key (k : string) (c : HNAPClient) : HNAPClient :=
  {| address := address c; username := username c; password := password c;
     logged_in := logged_in c; actions := actions c;
     _private_key := Some k; _cookie := _cookie c;
     _auth_token := _auth_token c; _timestamp := _timestamp c |}.

Definition set_token (t : Z) (tok : string) (c : HNAPClient) : HNAPClient :=
  {| address := address c; username := username c; password := password c;
     logged_in := logged_in c; actions := actions c;
     _private_key := _private_key c; _cookie := _cookie c;
     _auth_token := Some tok; _timestamp := Some t |}.

(** Python truthiness of [self.actions] ([None] or a list). *)
Definition actions_truthy (o : option (list string)) : bool :=
  match o with
  | Some (_ :: _) => true
  | _ => false
  end.

(** ** Program state and the monad of the coroutines *)

(** What a run leaves behind, in order: every entry into [login] and every
    remote call with its outcome.  The trace is an observer of the run; the
    client never reads it. *)
Inductive event :=
| EvLogin
| EvInvoke (rq : request) (out : exn + xml).

Record state (W : Type) := State {
  client : HNAPClient;
  world : W;
  trace : list event
}.
Arguments State {W} _ _ _.
Arguments client {W} _.
Arguments world {W} _.
Arguments trace {W} _.

Definition M (W A : Type) : Type := state W -> res A * state W.

Section Monad.
Context {W : Type}.

Definition ret {A} (a : A) : M W A := fun s => (Val a, s).
Definition raise {A} (e : exn) : M W A := fun s => (Raise e, s).
Definition out_of_fuel {A} : M W A := fun s => (OutOfFuel, s).

Definition bind {A B} (m : M W A) (f : A -> M W B) : M W B :=
  fun s =>
    match m s with
    | (Val a, s') => f a s'
    | (Raise e, s') => (Raise e, s')
    | (OutOfFuel, s') => (OutOfFuel, s')
    end.

(** [try: m except <classes of h>: h e]; a class [h] does not name
    propagates. *)
Definition catch {A} (m : M W A) (h : exn -> option (M W A)) : M W A :=
  fun s =>
    match m s with
    | (Raise e, s') =>
        match h e with
        | Some k => k s'
        | None => (Raise e, s')
        end
    | r => r
    end.

Definition get_client : M W HNAPClient := fun s => (Val (client s), s).

Definition modify_client (f : HNAPClient -> HNAPClient) : M W unit :=
  fun s => (Val tt, State (f (client s)) (world s) (trace s)).

Definition emit (ev : event) : M W unit :=
  fun s => (Val tt, State (client s) (world s) (trace s ++ [ev])%list).

(** An attribute access that raises when the element is missing. *)
Definition lift {A} (r : exn + A) : M W A :=
  match r with
  | inl e => raise e
  | inr a => ret a
  end.

End Monad.

Notation "'let*' x ':=' m 'in' k" := (bind m (fun x => k))
  (at level 10, x name, m at level 100, k at level 200).
Notation "m ';;' k" := (bind m (fun _ => k))
  (at level 100, k at level 200, right associativity, only parsing).

(** ** [HNAPClient] *)

Definition dquote : string := String (ascii_of_nat 34) EmptyString.

(** The string [_update_nauth_token] signs (line 133). *)
Definition auth_message (timestamp : Z) (action : string) : string :=
  PyStr.dec timestamp ++ dquote ++ ACTION_BASE_URL ++ action ++ dquote.

(** [HNAPClient._client]: the location and the headers handed to
    [SoapClient]. *)
Definition _client (c : HNAPClient) : string * gmap string string :=
  let headers : gmap string string := ∅ in
  let headers :=
    match _cookie c with
    | Some (String _ _ as ck) => <["Cookie" := "uid=" ++ ck]> headers
    | _ => headers
    end in
  let headers :=
    match _auth_token c with
    | Some (String _ _ as tok) =>
        <["HNAP_AUTH" :=
            tok ++ " " ++ match _timestamp c with
                          | Some t => PyStr.dec t
                          | None => "None"
                          end]> headers
    | _ => headers
    end in
  ("http://" ++ address c ++ "/HNAP1", headers).

Definition login_request_kwargs (c : HNAPClient) : list (string * pyval) :=
  [("Action", VStr "request"); ("Username", VStr (username c));
   ("LoginPassword", VStr EmptyString); ("Captcha", VStr EmptyString)].

Definition login_login_kwargs (c : HNAPClient) (pw : string)
  : list (string * pyval) :=
  [("Action", VStr "login"); ("Username", VStr (username c));
   ("LoginPassword", VStr pw); ("Captcha", VStr EmptyString)].

(** [_extract] of [device_actions] (lines 83-85). *)
Definition _extract (url : string) : string :=
  PyStr.drop (Z.to_nat (PyStr.rfind "/" url + 1)) url.

Section Client.
Context {W : Type} (dev : Device W).

(** [HNAPClient._update_nauth_token] *)
Definition _update_nauth_token (action : string) : M W unit :=
  fun s =>
    match _private_key (client s) with
    | Some (String _ _ as key) =>
        let '(t, w) := now dev (world s) in
        (Val tt,
         State (set_token t (_hmac key (auth_message t action)) (client s))
               w (trace s))
    | _ => (Val tt, s)
    end.

(** The remote call itself: the method looked up on [self._client()],
    applied to the positional and keyword arguments in the executor. *)
Definition transport (method : string) (args : list pyval)
    (kwargs : list (string * pyval)) : M W xml :=
  fun s =>
    let '(loc, headers) := _client (client s) in
    let rq := Request loc headers method args kwargs in
    let '(out, w) := invoke dev rq (world s) in
    let s' := State (client s) w (trace s ++ [EvInvoke rq out])%list in
    match out with
    | inl e => (Raise e, s')
    | inr r => (Val r, s')
    end.

(** [_call_method] of [call] (lines 97-101). *)
Definition _call_method (method : string) (args : list pyval)
    (kwargs : list (string * pyval)) : M W xml :=
  _update_nauth_token method ;; transport method args kwargs.

Section OpenRecursion.
(** [self.call] at the nesting depth below. *)
Variable call_ : string -> list pyval -> list (string * pyval) -> M W xml.

(** [HNAPClient.device_actions]; [map] over the [None] that
    [children()] returns for an element without children is a
    [TypeError]. *)
Definition device_actions_ : M W (list string) :=
  let* resp := call_ "GetDeviceSettings" [] [] in
  let* soap_actions := lift (SimpleXML.getattr resp "SOAPActions") in
  match SimpleXML.children soap_actions with
  | None => raise TypeError
  | Some entries =>
      ret (map (fun action => _extract (SimpleXML.str action)) entries)
  end.

(** [HNAPClient.soap_actions] *)
Definition soap_actions_ (module_id : pyval) : M W xml :=
  call_ "GetModuleSOAPActions" [] [("ModuleID", module_id)].

(** Lines 73-74 of [login]: discovery fills the cache when it is
    empty. *)
Definition populate_actions : M W unit :=
  let* c := get_client in
  if negb (actions_truthy (actions c))
  then let* acts := device_actions_ in modify_client (set_actions acts)
  else ret tt.

(** The [try] statement of [login] (lines 64-77), with the challenge
    and the private key that line 61 has just stored. *)
Definition login_second_stage (challenge private_key : string)
  : M W unit :=
  catch
    (let password := _hmac private_key challenge in
     let* c := get_client in
     let* resp := call_ "Login" [] (login_login_kwargs c password) in
     let* result := lift (SimpleXML.getattr resp "LoginResult") in
     if negb (String.eqb (PyStr.lower (SimpleXML.str result)) "success")
     then raise (AuthenticationError "Incorrect username or password")
     else populate_actions)
    (fun e =>
       match e with
       | ExpatError =>
           Some (raise (AuthenticationError "Bad response from device"))
       | _ => None
       end).

(** Lines 55-79 of [login]: what it does with the reply to its first
    request. *)
Definition login_with_challenge (resp : xml) : M W unit :=
  let* login_response := lift (SimpleXML.getattr resp "LoginResponse") in
  let* challenge := lift (SimpleXML.getattr login_response "Challenge") in
  let challenge := SimpleXML.str challenge in
  let* public_key := lift (SimpleXML.getattr login_response "PublicKey") in
  let public_key := SimpleXML.str public_key in
  let* cookie := lift (SimpleXML.getattr login_response "Cookie") in
  modify_client (set_cookie (SimpleXML.str cookie)) ;;
  let* c := get_client in
  let private_key := _hmac (public_key ++ password c) challenge in
  modify_client (set_private_key private_key) ;;
  login_second_stage challenge private_key ;;
  modify_client (set_logged_in true).

(** [HNAPClient.login] *)
Definition login_ : M W unit :=
  emit EvLogin ;;
  modify_client (set_logged_in false) ;;
  let* c := get_client in
  let* resp := call_ "Login" [] (login_request_kwargs c) in
  login_with_challenge resp.

(** Lines 103-105 of [call]: log in first when no private key is
    stored and the method is not ['Login']. *)
Definition ensure_login (method : string) : M W unit :=
  let* c := get_client in
  if negb (PyStr.truthy (_private_key c)) && negb (String.eqb method "Login")
  then login_
  else ret tt.

(** The [try] statement of [call] (lines 107-121): [Some res] when the
    body returns [res], [None] when control falls through to line
    122. *)
Definition first_attempt (method : string) (args : list pyval)
    (kwargs : list (string * pyval)) : M W (option xml) :=
  catch
    (let* res := _call_method method args kwargs in
     if negb (SimpleXML.contains "body" res)
     then ret (Some res)
     else ret None)
    (fun e => if is_session_signal e then Some (ret None) else None).

(** Lines 122-123 of [call]. *)
Definition relogin_and_retry (method : string) (args : list pyval)
    (kwargs : list (string * pyval)) : M W xml :=
  login_ ;; _call_method method args kwargs.

Definition call_body (method : string) (args : list pyval)
    (kwargs : list (string * pyval)) : M W xml :=
  ensure_login method ;;
  let* r := first_attempt method args kwargs in
  match r with
  | Some res => ret res
  | None => relogin_and_retry method args kwargs
  end.

End OpenRecursion.

(** [HNAPClient.call]; [fuel] bounds how deep [call] and [login] nest. *)
Fixpoint call (fuel : nat) (method : string) (args : list pyval)
    (kwargs : list (string * pyval)) : M W xml :=
  match fuel with
  | O => out_of_fuel
  | S n => call_body (call n) method args kwargs
  end.

Definition login (fuel : nat) : M W unit := login_ (call fuel).
Definition device_actions (fuel : nat) : M W (list string) :=
  device_actions_ (call fuel).
Definition soap_actions (fuel : nat) (module_id : pyval) : M W xml :=
  soap_actions_ (call fuel) module_id.

End Client.

(** The digits of an upper-case hexadecimal rendering. *)
Definition upper_hex_digit (a : ascii) : Prop :=
  In a (list_ascii_of_string "0123456789ABCDEF").

(** ** Observers of a run *)

(** The shape of a trace: ["login()"] for an entry into [login], the action
    name for a remote call, each with whether it went through. *)
Definition outline (tr : list event) : list (string * bool) :=
  map (fun ev =>
         match ev with
         | EvLogin => ("login()", true)
         | EvInvoke rq (inl _) => (rq_action rq, false)
         | EvInvoke rq (inr _) => (rq_action rq, true)
         end) tr.

Definition is_invoke_of (action : string) (ev : event) : bool :=
  match ev with
  | EvInvoke rq _ => String.eqb (rq_action rq) action
  | EvLogin => false
  end.

Definition is_login (ev : event) : bool :=
  match ev with
  | EvLogin => true
  | EvInvoke _ _ => false
  end.

(** The header [name] of the request of an event, if any. *)
Definition header (name : string) (ev : event) : option string :=
  match ev with
  | EvInvoke rq _ => rq_headers rq !! name
  | EvLogin => None
  end.

(** How many remote calls of [action], and how many entries into [login],
    a trace holds. *)
Definition invocations (action : string) (tr : list event) : nat :=
  length (List.filter (is_invoke_of action) tr).

Definition logins (tr : list event) : nat := length (List.filter is_login tr).

(** The state in which [login] issues its first request (after lines
    48-50). *)
Definition enter_login {W} (s : state W) : state W :=
  State (set_logged_in false (client s)) (world s) (trace s ++ [EvLogin])%list.

(** [m] never leaves the relation [R] between the state it starts in and
    the state it ends in, whatever its outcome. *)
Definition preserves {W A} (R : relation (state W)) (m : M W A) : Prop :=
  forall s, R s (snd (m s)).

(** [m'] does what [m] does wherever [m] has fuel enough to finish. *)
Definition finishes_like {W A} (m m' : M W A) : Prop :=
  forall s, fst (m s) <> OutOfFuel -> m' s = m s.

(** What no run undoes: the credentials stay as they are, a private key
    once stored stays stored, and the trace grows at its end. *)
Definition extends {W} (s s' : state W) : Prop :=
  address (client s') = address (client s) /\
  username (client s') = username (client s) /\
  password (client s') = password (client s) /\
  (PyStr.truthy (_private_key (client s)) = true ->
   PyStr.truthy (_private_key (client s')) = true) /\
  exists evs, trace s' = (trace s ++ evs)%list.

(** A cache that is filled stays as it is, with no discovery call made. *)
Definition keeps_cache {W} (s s' : state W) : Prop :=
  actions_truthy (actions (client s)) = true ->
  actions (client s') = actions (client s) /\
  invocations "GetDeviceSettings" (trace s')
  = invocations "GetDeviceSettings" (trace s).

(** The cache changes only in a run that makes a discovery call. *)
Definition discovers {W} (s s' : state W) : Prop :=
  (invocations "GetDeviceSettings" (trace s)
   <= invocations "GetDeviceSettings" (trace s'))%nat /\
  (actions (client s') <> actions (client s) ->
   (invocations "GetDeviceSettings" (trace s)
    < invocations "GetDeviceSettings" (trace s'))%nat).

(** ** Devices and responses used in the examples *)

Module Examples.
Local Open Scope list_scope.

Definition envelope (payload : list xml) : xml :=
  Elem "soap:Envelope" EmptyString [Elem "soap:Body" EmptyString payload].

Definition leaf (tag text : string) : xml := Elem tag text [].

(** The reply to [Login] with [Action='request']. *)
Definition challenge_reply (challenge public_key cookie : string) : xml :=
  envelope [Elem "LoginResponse" EmptyString
              [leaf "LoginResult" "OK"; leaf "Challenge" challenge;
               leaf "Cookie" cookie; leaf "PublicKey" public_key]].

(** The reply to [Login] with [Action='login']. *)
Definition login_reply (result : string) : xml :=
  envelope [Elem "LoginResponse" EmptyString [leaf "LoginResult" result]].

Definition settings_reply (urls : list string) : xml :=
  envelope [Elem "GetDeviceSettingsResponse" EmptyString
              [leaf "GetDeviceSettingsResult" "OK";
               leaf "Type" "Sensor";
               Elem "SOAPActions" EmptyString (map (leaf "string") urls)]].

Definition status_reply (action result : string) : xml :=
  envelope [Elem (action ++ "Response")%string EmptyString
              [leaf (action ++ "Result")%string result]].

(** What an HTTP server sends to a client it does not know. *)
Definition html_page : xml :=
  Elem "html" EmptyString
    [Elem "head" EmptyString [leaf "title" "401 Unauthorized"];
     Elem "body" EmptyString [leaf "h1" "Unauthorized"]].

(** A device that plays a script: each remote call takes the next
    outcome and a second of time; past the end of the script the device
    is unreachable. *)
Record scripted := Scripted {
  clock : Z;
  script : list (exn + xml)
}.

Definition scripted_device : Device scripted :=
  {| invoke := fun _ w =>
       match script w with
       | [] => (inl URLError, Scripted (clock w + 1) [])
       | out :: rest => (out, Scripted (clock w + 1) rest)
       end;
     now := fun w => (clock w, w) |}.

(** Whether the keyword argument [name] is the string [v]. *)
Definition kwarg_is (name v : string) (kwargs : list (string * pyval))
  : bool :=
  match List.find (fun kv => String.eqb (fst kv) name) kwargs with
  | Some (_, VStr s) => String.eqb s v
  | _ => false
  end.

(** An HNAP device with one account: it hands out a fixed challenge,
    accepts the login whose [LoginPassword] is the HMAC chain of its
    password, and answers every other action with [OK]. *)
Record hnap_device := Hnap {
  hd_password : string;
  hd_challenge : string;
  hd_public_key : string;
  hd_cookie : string;
  hd_actions : list string;
  hd_time : Z
}.

Definition hnap_reply (d : hnap_device) (rq : request) : exn + xml :=
  if String.eqb (rq_action rq) "Login" then
    if kwarg_is "Action" "request" (rq_kwargs rq) then
      inr (challenge_reply (hd_challenge d) (hd_public_key d) (hd_cookie d))
    else
      let key := _hmac (hd_public_key d ++ hd_password d)%string
                       (hd_challenge d) in
      if kwarg_is "LoginPassword" (_hmac key (hd_challenge d)) (rq_kwargs rq)
      then inr (login_reply "success")
      else inr (login_reply "failed")
  else if String.eqb (rq_action rq) "GetDeviceSettings" then
    inr (settings_reply (map (String.append ACTION_BASE_URL) (hd_actions d)))
  else inr (status_reply (rq_action rq) "OK").

Definition hnap : Device hnap_device :=
  {| invoke := fun rq d => (hnap_reply d rq, d);
     now := fun d => (hd_time d, d) |}.

(** A device whose login action is broken: the challenge is handed out,
    the login itself is answered with an HTTP error status. *)
Definition login_down_reply (rq : request) : exn + xml :=
  if kwarg_is "Action" "request" (rq_kwargs rq)
  then inr (challenge_reply "abc123" "XYZ" "c00kie")
  else inl HTTPError.

Definition login_down : Device Z :=
  {| invoke := fun rq t => (login_down_reply rq, t);
     now := fun t => (t, t) |}.

(** A client in the middle of a session. *)
Definition session_client : HNAPClient :=
  {| address := "192.168.0.20"; username := "Admin"; password := "secret";
     logged_in := true;
     actions := Some ["GetDeviceSettings"; "GetFirmwareStatus"];
     _private_key := Some (_hmac "XYZsecret" "abc123");
     _cookie := Some "c00kie";
     _auth_token := None; _timestamp := None |}.

Definition fresh_client : HNAPClient :=
  new_client "192.168.0.20" "Admin" "secret".

(** The device behind [session_client]; it has learnt a third action
    since the client cached two. *)
Definition sensor : hnap_device :=
  {| hd_password := "secret"; hd_challenge := "abc123";
     hd_public_key := "XYZ"; hd_cookie := "c00kie";
     hd_actions :=
       ["GetDeviceSettings"; "GetFirmwareStatus"; "GetLatestDetection"];
     hd_time := 1500000000 |}.

Definition start {W} (c : HNAPClient) (w : W) : state W := State c w [].

(** The session has expired: the call fails, the handshake goes
    through, the call succeeds. *)
Definition script_expired : list (exn + xml) :=
  [inl URLError; inr (challenge_reply "n0nce" "PUB" "c2");
   inr (login_reply "success"); inr (status_reply "GetFirmwareStatus" "OK")].

(** The password has been changed on the device: the call fails and the
    handshake is refused. *)
Definition script_rejected : list (exn + xml) :=
  [inl URLError; inr (challenge_reply "n0nce" "PUB" "c2");
   inr (login_reply "failed")].

(** The device answers the call with an HTML page. *)
Definition script_html : list (exn + xml) :=
  [inr html_page; inr (challenge_reply "n0nce" "PUB" "c2");
   inr (login_reply "success"); inr (status_reply "GetFirmwareStatus" "OK")].

Definition expired : state scripted :=
  start session_client (Scripted 100 script_expired).
Definition rejected : state scripted :=
  start session_client (Scripted 100 script_rejected).
Definition html : state scripted :=
  start session_client (Scripted 100 script_html).

(** A client that does not know the password of [sensor]. *)
Definition stranger : state hnap_device :=
  start (new_client "192.168.0.20" "Admin" "guess") sensor.

End Examples.

(** ** Requests as the client builds them *)

(** The request of a client at [addr]: the location names the address, a
    [Cookie] header is ["uid="] before a non-empty cookie, an [HNAP_AUTH]
    header is a token, a space and the time stamp the token signs, and
    there is no other header. *)
Definition well_formed_request (addr : string) (rq : request) : Prop :=
  rq_location rq = "http://" ++ addr ++ "/HNAP1" /\
  (rq_headers rq !! "Cookie" = None \/
   exists ck, ck <> EmptyString /\
              rq_headers rq !! "Cookie" = Some ("uid=" ++ ck)) /\
  (rq_headers rq !! "HNAP_AUTH" = None \/
   exists key t action,
     rq_headers rq !! "HNAP_AUTH"
     = Some (_hmac key (auth_message t action) ++ " " ++ PyStr.dec t)) /\
  (forall name, name <> "Cookie" -> name <> "HNAP_AUTH" ->
                rq_headers rq !! name = None).

Definition well_formed_event (addr : string) (ev : event) : Prop :=
  match ev with
  | EvInvoke rq _ => well_formed_request addr rq
  | EvLogin => True
  end.

(** A stored token comes with the time stamp it signs. *)
Definition token_signed (c : HNAPClient) : Prop :=
  match _auth_token c with
  | None => True
  | Some tok =>
      exists key t action,
        tok = _hmac key (auth_message t action) /\ _timestamp c = Some t
  end.

Definition well_formed_run {W} (s s' : state W) : Prop :=
  token_signed (client s) ->
  token_signed (client s') /\
  address (client s') = address (client s) /\
  exists evs, trace s' = (trace s ++ evs)%list /\
              Forall (well_formed_event (address (client s))) evs.

(** No remote call of [action] is made. *)
Definition silent_on {W} (action : string) (s s' : state W) : Prop :=
  invocations action (trace s') = invocations action (trace s).

(** A cookie once stored stays stored. *)
Definition keeps_cookie {W} (s s' : state W) : Prop :=
  _cookie (client s) <> None -> _cookie (client s') <> None.

(** ** [MotionSensor] *)

(** The sensor object; its [client] is the one of the program state. *)
Record MotionSensor := Sensor {
  module_id : pyval;
  _soap_actions : option (list string)
}.

(** [MotionSensor.__init__] *)
Definition new_sensor (module_id : pyval) : MotionSensor :=
  {| module_id := module_id; _soap_actions := None |}.

Definition set_soap_actions (l : list string) (ms : MotionSensor)
  : MotionSensor :=
  {| module_id := module_id ms; _soap_actions := Some l |}.

Definition latest_detection_kwargs (ms : MotionSensor)
  : list (string * pyval) :=
  [("ModuleID", module_id ms)].

Definition detector_logs_kwargs (ms : MotionSensor)
  : list (string * pyval) :=
  [("ModuleID", module_id ms); ("MaxCount", VInt 1); ("PageOffset", VInt 1);
   ("StartTime", VInt 0); ("EndTime", VStr "All")].

Section MotionSensorMethods.
(** [float] and [datetime.fromtimestamp] are taken as they come: [F] are
    the floats, [T] the local date-times. *)
Context {W : Type} (dev : Device W) {F T : Type}.
Variable float_ : string -> exn + F.
Variable fromtimestamp : F -> exn + T.

(** [MotionSensor._cache_soap_actions]; the sensor is returned with every
    outcome, the assignment to [self._soap_actions] being the last
    step. *)
Definition _cache_soap_actions (fuel : nat) (ms : MotionSensor)
    (s : state W) : res unit * MotionSensor * state W :=
  match soap_actions dev fuel (module_id ms) s with
  | (Val resp, s1) =>
      match SimpleXML.getattr resp "SOAPActions" with
      | inl e => (Raise e, ms, s1)
      | inr soap_actions =>
          match SimpleXML.children soap_actions with
          | None => (Raise TypeError, ms, s1)
          | Some entries =>
              let actions :=
                List.filter
                  (fun x => String.eqb (SimpleXML.tag x) "Action") entries in
              (Val tt, set_soap_actions (map SimpleXML.str actions) ms, s1)
          end
      end
  | (Raise e, s1) => (Raise e, ms, s1)
  | (OutOfFuel, s1) => (OutOfFuel, ms, s1)
  end.

(** The time stamp of a reply, from the element [path] leads to, as a
    local date-time (lines 182 and 189, or 187 and 189). *)
Definition detect_time (resp : xml) (path : list string) : M W T :=
  let* x := lift (fold_left
                    (fun r name =>
                       match r with
                       | inl e => inl e
                       | inr y => SimpleXML.getattr y name
                       end) path (inr resp)) in
  let* t := lift (float_ (SimpleXML.str x)) in
  lift (fromtimestamp t).

(** [MotionSensor.latest_trigger]; [x[0]] is the first element [x]
    stands for, which is [x] itself in this model of the replies. *)
Definition latest_trigger (fuel : nat) (ms : MotionSensor) (s : state W)
  : res T * MotionSensor * state W :=
  let '(r, ms1, s1) :=
    if negb (actions_truthy (_soap_actions ms))
    then _cache_soap_actions fuel ms s
    else (Val tt, ms, s) in
  match r with
  | Raise e => (Raise e, ms1, s1)
  | OutOfFuel => (OutOfFuel, ms1, s1)
  | Val _ =>
      match _soap_actions ms1 with
      | None => (Raise TypeError, ms1, s1)
      | Some cached =>
          let '(r2, s2) :=
            if existsb (String.eqb "GetLatestDetection") cached
            then
              (let* resp := call dev fuel "GetLatestDetection" []
                              (latest_detection_kwargs ms1) in
               detect_time resp ["LatestDetectTime"]) s1
            else
              (let* resp := call dev fuel "GetMotionDetectorLogs" []
                              (detector_logs_kwargs ms1) in
               detect_time resp ["MotionDetectorLogList"; "TimeStamp"]) s1 in
          (r2, ms1, s2)
      end
  end.

End MotionSensorMethods.

(** ** The water sensor platform ([dlink_water_sensor.py]) *)

Module Water.

Definition DEFAULT_NAME : string := "D-Link Water Sensor".
Definition DEFAULT_USERNAME : string := "Admin".
Definition DEFAULT_TIMEOUT : Z := 35.

(** A naive [datetime] is the number of microseconds on its calendar, and
    the difference of two is a [timedelta] of that many microseconds. *)
Definition datetime : Type := Z.

(** [timedelta.seconds]: the seconds within the day, once the days are
    taken out. *)
Definition timedelta_seconds (microseconds : Z) : Z :=
  (microseconds / 1000000) mod 86400.

Record DlinkWaterSensor := Build_sensor {
  _name : string;
  _timeout : Z;
  _on : bool
}.

(** [DlinkWaterSensor.__init__] *)
Definition new_water_sensor (name : string) (timeout : Z) : DlinkWaterSensor :=
  {| _name := name; _timeout := timeout; _on := false |}.

Definition set_on (b : bool) (ws : DlinkWaterSensor) : DlinkWaterSensor :=
  {| _name := _name ws; _timeout := _timeout ws; _on := b |}.

Definition name (ws : DlinkWaterSensor) : string := _name ws.
Definition is_on (ws : DlinkWaterSensor) : bool := _on ws.
Definition device_class (ws : DlinkWaterSensor) : string := "water".

(** [DlinkWaterSensor.async_update].  [trigger] is how
    [self._water_sensor.latest_trigger()] ended: with an exception, with
    [None] or with a date-time; [now] is [datetime.now()].  The result is
    the sensor and whether a state update was scheduled. *)
Definition async_update (ws : DlinkWaterSensor)
    (trigger : exn + option datetime) (now : datetime)
  : DlinkWaterSensor * bool :=
  let last_trigger :=
    match trigger with
    | inl _ => None
    | inr t => t
    end in
  match last_trigger with
  | None => (ws, false)
  | Some last_trigger =>
      let has_timed_out :=
        (_timeout ws <? timedelta_seconds (now - last_trigger))%Z in
      if has_timed_out
      then if _on ws then (set_on false ws, true) else (ws, false)
      else if negb (_on ws) then (set_on true ws, true) else (ws, false)
  end.

End Water.

(** ** Runs of the sensors *)

Module SensorExamples.
Import Examples.
Local Open Scope list_scope.

(** Stand-ins for [float] and [datetime.fromtimestamp]: whole seconds
    written in decimal, and a calendar counted in microseconds from the
    epoch. *)
Definition float_of_decimal (text : string) : exn + Z :=
  match NilZero.uint_of_string text with
  | Some d => inr (Z.of_uint d)
  | None => inl (OtherError "ValueError")
  end.

Definition fromtimestamp_utc (t : Z) : exn + Water.datetime :=
  inr (t * 1000000)%Z.

(** The reply to [GetModuleSOAPActions], its entries under [tag]. *)
Definition module_actions_reply (tag : string) (names : list string) : xml :=
  envelope [Elem "GetModuleSOAPActionsResponse" EmptyString
              [leaf "GetModuleSOAPActionsResult" "OK";
               Elem "SOAPActions" EmptyString (map (leaf tag) names)]].

Definition latest_detection_reply (time_stamp : string) : xml :=
  envelope [Elem "GetLatestDetectionResponse" EmptyString
              [leaf "GetLatestDetectionResult" "OK";
               leaf "LatestDetectTime" time_stamp]].

Definition detector_logs_reply (time_stamp : string) : xml :=
  envelope [Elem "GetMotionDetectorLogsResponse" EmptyString
              [leaf "GetMotionDetectorLogsResult" "OK";
               Elem "MotionDetectorLogList" EmptyString
                 [Elem "MotionDetectorLog" EmptyString
                    [leaf "TimeStamp" time_stamp]]]].

(** The first module of a device, before and after its actions have
    been cached. *)
Definition motion : MotionSensor := new_sensor (VInt 1).
Definition motion_cached : MotionSensor :=
  set_soap_actions ["GetLatestDetection"] motion.

(** The device lists the actions of the module under another tag, then
    answers the request for its log. *)
Definition script_untagged : list (exn + xml) :=
  [inr (module_actions_reply "string" ["GetLatestDetection"]);
   inr (detector_logs_reply "1500000000")].

(** The device answers with a SOAP fault. *)
Definition script_fault : list (exn + xml) := [inl (OtherError "SoapFault")].

(** The device answers the first [Login] request without a challenge. *)
Definition script_no_challenge : list (exn + xml) :=
  [inr (login_reply "failed")].

(** The device answers the request for the latest detection. *)
Definition script_detection : list (exn + xml) :=
  [inr (latest_detection_reply "1500000000")].

Definition detecting : state scripted :=
  start session_client (Scripted 100 script_detection).
Definition untagged : state scripted :=
  start session_client (Scripted 100 script_untagged).
Definition fault : state scripted :=
  start session_client (Scripted 100 script_fault).
Definition no_challenge : state scripted :=
  start fresh_client (Scripted 100 script_no_challenge).

(** A water sensor as [async_setup_platform] creates it by default, and
    a date-time to poll it at. *)
Definition leak : Water.DlinkWaterSensor :=
  Water.new_water_sensor Water.DEFAULT_NAME Water.DEFAULT_TIMEOUT.
Definition noon : Water.datetime := 1500033600000000%Z.

End SensorExamples.

(** * Facts *)

(** ** The shape of a digest *)

Lemma le_bytes_length n x : length (MD5.le_bytes n x) = n.
Proof. unfold MD5.le_bytes. by rewrite length_map, length_seq. Qed.

Lemma le_bytes_range n x : Forall (fun b => 0 <= b < 256) (MD5.le_bytes n x).
Proof.
  unfold MD5.le_bytes. apply Forall_map, Forall_forall. intros k _.
  apply Z.mod_pos_bound. lia.
Qed.

Lemma md5_length msg : length (MD5.md5 msg) = 16%nat.
Proof. unfold MD5.md5. rewrite !length_app, !le_bytes_length. reflexivity. Qed.

Lemma md5_range msg : Forall (fun b => 0 <= b < 256) (MD5.md5 msg).
Proof. unfold MD5.md5. rewrite !Forall_app. auto using le_bytes_range. Qed.

Lemma hex_length bs : String.length (PyStr.hex bs) = (2 * length bs)%nat.
Proof. induction bs as [|b bs IH]; simpl; [reflexivity | rewrite IH; lia]. Qed.

Lemma upper_length s : String.length (PyStr.upper s) = String.length s.
Proof. induction s; simpl; congruence. Qed.

Lemma upper_hex_digit_of d :
  0 <= d < 16 -> upper_hex_digit (PyStr.upper_char (PyStr.hex_digit d)).
Proof.
  intros Hd.
  assert (Hn : (Z.to_nat d < 16)%nat) by lia.
  unfold PyStr.hex_digit. generalize dependent (Z.to_nat d). intros n Hn.
  do 16 (destruct n as [|n]; [vm_compute; tauto|]). lia.
Qed.

Lemma upper_hex_range bs :
  Forall (fun b => 0 <= b < 256) bs ->
  Forall upper_hex_digit (list_ascii_of_string (PyStr.upper (PyStr.hex bs))).
Proof.
  induction 1 as [|b bs Hb _ IH]; simpl; [constructor|].
  apply Forall_cons_2; [|apply Forall_cons_2; [|exact IH]].
  - apply upper_hex_digit_of.
    split; [apply Z.div_pos; lia | apply Z.div_lt_upper_bound; lia].
  - apply upper_hex_digit_of, Z.mod_pos_bound; lia.
Qed.

Lemma _hmac_length key message : String.length (_hmac key message) = 32%nat.
Proof.
  unfold _hmac, HMAC.hmac_md5.
  rewrite upper_length, hex_length, md5_length. reflexivity.
Qed.

Lemma _hmac_upper_hex key message :
  Forall upper_hex_digit (list_ascii_of_string (_hmac key message)).
Proof. apply upper_hex_range, md5_range. Qed.

Lemma _hmac_truthy key message : PyStr.truthy (Some (_hmac key message)) = true.
Proof.
  pose proof (_hmac_length key message) as H.
  destruct (_hmac key message); [discriminate H | reflexivity].
Qed.

(** ** The monad *)

Section MonadFacts.
Context {W : Type}.
Implicit Types s : state W.

Lemma bind_val {A B} (m : M W A) (f : A -> M W B) s a s1 :
  m s = (Val a, s1) -> bind m f s = f a s1.
Proof. unfold bind. by intros ->. Qed.

Lemma bind_raise {A B} (m : M W A) (f : A -> M W B) s e s1 :
  m s = (Raise e, s1) -> bind m f s = (Raise e, s1).
Proof. unfold bind. by intros ->. Qed.

Lemma bind_out_of_fuel {A B} (m : M W A) (f : A -> M W B) s s1 :
  m s = (OutOfFuel, s1) -> bind m f s = (OutOfFuel, s1).
Proof. unfold bind. by intros ->. Qed.

Section Preserves.
Context (R : relation (state W)) `{!PreOrder R}.

Lemma preserves_ret {A} (a : A) : preserves R (ret a).
Proof. intros s. reflexivity. Qed.

Lemma preserves_raise {A} e : preserves R (raise (A := A) e).
Proof. intros s. reflexivity. Qed.

Lemma preserves_out_of_fuel {A} : preserves R (out_of_fuel (A := A)).
Proof. intros s. reflexivity. Qed.

Lemma preserves_get_client : preserves R get_client.
Proof. intros s. reflexivity. Qed.

Lemma preserves_lift {A} (r : exn + A) : preserves R (lift r).
Proof. destruct r; intros s; reflexivity. Qed.

Lemma preserves_bind {A B} (m : M W A) (f : A -> M W B) :
  preserves R m -> (forall a, preserves R (f a)) -> preserves R (bind m f).
Proof.
  intros Hm Hf s. specialize (Hm s). unfold bind.
  destruct (m s) as [[a| |] s1]; simpl in *; [|done..].
  etransitivity; [exact Hm | apply Hf].
Qed.

Lemma preserves_catch {A} (m : M W A) (h : exn -> option (M W A)) :
  preserves R m -> (forall e k, h e = Some k -> preserves R k) ->
  preserves R (catch m h).
Proof.
  intros Hm Hh s. specialize (Hm s). unfold catch.
  destruct (m s) as [[a|e|] s1]; simpl in *; [done| |done].
  destruct (h e) as [k|] eqn:He; [|done].
  etransitivity; [exact Hm | by apply (Hh e)].
Qed.

Lemma preserves_if {A} (b : bool) (m1 m2 : M W A) :
  preserves R m1 -> preserves R m2 -> preserves R (if b then m1 else m2).
Proof. by destruct b. Qed.

End Preserves.

Lemma finishes_like_refl {A} (m : M W A) : finishes_like m m.
Proof. by intros s _. Qed.

Lemma finishes_like_bind {A B} (m m' : M W A) (f f' : A -> M W B) :
  finishes_like m m' -> (forall a, finishes_like (f a) (f' a)) ->
  finishes_like (bind m f) (bind m' f').
Proof.
  intros Hm Hf s. specialize (Hm s). unfold bind.
  destruct (m s) as [[a|e|] s1]; simpl in *; intros Hs.
  - rewrite Hm by done. by apply Hf.
  - by rewrite Hm.
  - done.
Qed.

Lemma finishes_like_catch {A} (m m' : M W A) (h : exn -> option (M W A)) :
  finishes_like m m' -> finishes_like (catch m h) (catch m' h).
Proof.
  intros Hm s. specialize (Hm s). unfold catch.
  destruct (m s) as [[a|e|] s1]; simpl in *; intros Hs.
  - by rewrite Hm.
  - by rewrite Hm.
  - done.
Qed.

End MonadFacts.

(** ** Invariants of [login] and [call] *)

Section ClientFacts.
Context {W : Type} (dev : Device W).
Implicit Types s : state W.

Section Invariant.
(** A preorder [R] on states that every step of the client respects on
    the methods [ok] also holds across [login] and across [call] on
    those methods. *)
Context (R : relation (state W)) `{!PreOrder R} (ok : string -> Prop).
Hypothesis ok_login : ok "Login".
Hypothesis R_emit : preserves R (emit EvLogin).
Hypothesis R_logged_in :
  forall b, preserves R (modify_client (set_logged_in b)).
Hypothesis R_cookie :
  forall ck, preserves R (modify_client (set_cookie ck)).
Hypothesis R_private_key :
  forall key message,
    preserves R (modify_client (set_private_key (_hmac key message))).
Hypothesis R_token : forall action, preserves R (_update_nauth_token dev action).
Hypothesis R_transport :
  forall method args kwargs, ok method ->
    preserves R (transport dev method args kwargs).
Hypothesis R_populate :
  forall fuel,
    (forall method args kwargs, ok method ->
       preserves R (call dev fuel method args kwargs)) ->
    preserves R (populate_actions (call dev fuel)).

Lemma _call_method_preserves method args kwargs :
  ok method -> preserves R (_call_method dev method args kwargs).
Proof. intros Hok. apply (preserves_bind R); auto. Qed.

Section OpenRecursion.
Variable call_ : string -> list pyval -> list (string * pyval) -> M W xml.
Hypothesis R_call_ :
  forall method args kwargs, ok method ->
    preserves R (call_ method args kwargs).
Hypothesis R_populate_ : preserves R (populate_actions call_).

Lemma login_second_stage_preserves challenge key :
  preserves R (login_second_stage call_ challenge key).
Proof.
  apply (preserves_catch R).
  - apply (preserves_bind R); [apply (preserves_get_client R)|intros c].
    apply (preserves_bind R); [by apply R_call_|intros resp].
    apply (preserves_bind R); [apply (preserves_lift R)|intros result].
    apply (preserves_if R); [apply (preserves_raise R)|apply R_populate_].
  - intros [] k [= <-]. apply (preserves_raise R).
Qed.

Lemma login_with_challenge_preserves resp :
  preserves R (login_with_challenge call_ resp).
Proof.
  unfold login_with_challenge.
  repeat first
    [ apply login_second_stage_preserves
    | apply R_logged_in | apply R_cookie | apply R_private_key
    | apply (preserves_get_client R) | apply (preserves_lift R)
    | apply (preserves_bind R); [|intros ?] ].
Qed.

Lemma login_preserves : preserves R (login_ call_).
Proof.
  unfold login_.
  repeat first
    [ apply login_with_challenge_preserves
    | apply R_emit | apply R_logged_in
    | apply (preserves_get_client R) | by apply R_call_
    | apply (preserves_bind R); [|intros ?] ].
Qed.

Lemma call_body_preserves method args kwargs :
  ok method -> preserves R (call_body dev call_ method args kwargs).
Proof.
  intros Hok. unfold call_body.
  apply (preserves_bind R); [|intros _; apply (preserves_bind R); [|intros [res|]]].
  - apply (preserves_bind R); [apply (preserves_get_client R)|intros c].
    apply (preserves_if R); [apply login_preserves|apply (preserves_ret R)].
  - apply (preserves_catch R).
    + apply (preserves_bind R); [by apply _call_method_preserves|intros res].
      apply (preserves_if R); apply (preserves_ret R).
    + intros e k. destruct (is_session_signal e); intros [= <-].
      apply (preserves_ret R).
  - apply (preserves_ret R).
  - apply (preserves_bind R); [apply login_preserves|intros _].
    by apply _call_method_preserves.
Qed.

End OpenRecursion.

Lemma call_preserves fuel method args kwargs :
  ok method -> preserves R (call dev fuel method args kwargs).
Proof.
  revert method args kwargs.
  induction fuel as [|n IH]; intros method args kwargs Hok; simpl.
  - apply (preserves_out_of_fuel R).
  - apply call_body_preserves; auto.
Qed.

Lemma login_fuel_preserves fuel : preserves R (login dev fuel).
Proof.
  apply login_preserves; [|apply R_populate];
    intros; by apply call_preserves.
Qed.

Lemma login_with_challenge_fuel_preserves fuel resp :
  preserves R (login_with_challenge (call dev fuel) resp).
Proof.
  apply login_with_challenge_preserves; [|apply R_populate];
    intros; by apply call_preserves.
Qed.

End Invariant.

(** Discovery respects every preorder that the steps respect on all
    methods and that storing the result respects. *)
Lemma populate_actions_preserves (R : relation (state W)) `{!PreOrder R}
    (call_ : string -> list pyval -> list (string * pyval) -> M W xml) :
  (forall acts, preserves R (modify_client (set_actions acts))) ->
  (forall method args kwargs, preserves R (call_ method args kwargs)) ->
  preserves R (populate_actions call_).
Proof.
  intros Hset Hcall.
  apply (preserves_bind R); [apply (preserves_get_client R)|intros c].
  apply (preserves_if R); [|apply (preserves_ret R)].
  apply (preserves_bind R); [|by intros acts].
  apply (preserves_bind R); [by apply Hcall|intros resp].
  apply (preserves_bind R); [apply (preserves_lift R)|intros sa].
  destruct (SimpleXML.children sa);
    [apply (preserves_ret R)|apply (preserves_raise R)].
Qed.

(** *** More fuel changes nothing for a run that finished *)

Section Fuel.
Variables call_ call_' :
  string -> list pyval -> list (string * pyval) -> M W xml.
Hypothesis call_finishes :
  forall method args kwargs,
    finishes_like (call_ method args kwargs) (call_' method args kwargs).

Local Ltac fuel_steps :=
  repeat first
    [ apply call_finishes
    | apply finishes_like_bind; [|intros ?]
    | apply finishes_like_catch
    | apply finishes_like_refl ].

Lemma device_actions_finishes :
  finishes_like (device_actions_ call_) (device_actions_ call_').
Proof. unfold device_actions_. fuel_steps. Qed.

Lemma populate_actions_finishes :
  finishes_like (populate_actions call_) (populate_actions call_').
Proof.
  unfold populate_actions.
  apply finishes_like_bind; [apply finishes_like_refl|intros c].
  destruct (negb _); [|apply finishes_like_refl].
  apply finishes_like_bind;
    [apply device_actions_finishes|intros; apply finishes_like_refl].
Qed.

Lemma login_second_stage_finishes challenge key :
  finishes_like (login_second_stage call_ challenge key)
                (login_second_stage call_' challenge key).
Proof.
  unfold login_second_stage. apply finishes_like_catch.
  apply finishes_like_bind; [apply finishes_like_refl|intros c].
  apply finishes_like_bind; [apply call_finishes|intros resp].
  apply finishes_like_bind; [apply finishes_like_refl|intros result].
  destruct (negb _);
    [apply finishes_like_refl|apply populate_actions_finishes].
Qed.

Lemma login_with_challenge_finishes resp :
  finishes_like (login_with_challenge call_ resp)
                (login_with_challenge call_' resp).
Proof.
  unfold login_with_challenge.
  repeat first
    [ apply login_second_stage_finishes
    | apply finishes_like_bind; [|intros ?]
    | apply finishes_like_refl ].
Qed.

Lemma login_finishes : finishes_like (login_ call_) (login_ call_').
Proof.
  unfold login_.
  repeat first
    [ apply call_finishes
    | apply login_with_challenge_finishes
    | apply finishes_like_bind; [|intros ?]
    | apply finishes_like_refl ].
Qed.

Lemma call_body_finishes method args kwargs :
  finishes_like (call_body dev call_ method args kwargs)
                (call_body dev call_' method args kwargs).
Proof.
  unfold call_body, ensure_login, relogin_and_retry.
  apply finishes_like_bind; [|intros _; apply finishes_like_bind].
  - apply finishes_like_bind; [apply finishes_like_refl|intros c].
    destruct (_ && _); [apply login_finishes|apply finishes_like_refl].
  - apply finishes_like_refl.
  - intros [res|]; [apply finishes_like_refl|].
    apply finishes_like_bind;
      [apply login_finishes|intros; apply finishes_like_refl].
Qed.

End Fuel.

Lemma call_fuel_S fuel method args kwargs :
  finishes_like (call dev fuel method args kwargs)
                (call dev (S fuel) method args kwargs).
Proof.
  revert method args kwargs.
  induction fuel as [|n IH]; intros method args kwargs.
  - intros s Hs. by destruct Hs.
  - apply call_body_finishes, IH.
Qed.

Lemma call_fuel_mono fuel fuel' method args kwargs :
  (fuel <= fuel')%nat ->
  finishes_like (call dev fuel method args kwargs)
                (call dev fuel' method args kwargs).
Proof.
  induction 1 as [|n Hle IH]; [apply finishes_like_refl|].
  intros s Hs. rewrite <- (IH s Hs).
  apply call_fuel_S. by rewrite (IH s Hs).
Qed.

Lemma login_fuel_mono fuel fuel' :
  (fuel <= fuel')%nat -> finishes_like (login dev fuel) (login dev fuel').
Proof. intros Hle. apply login_finishes. intros. by apply call_fuel_mono. Qed.

Lemma device_actions_fuel_mono fuel fuel' :
  (fuel <= fuel')%nat ->
  finishes_like (device_actions dev fuel) (device_actions dev fuel').
Proof.
  intros Hle. apply device_actions_finishes. intros. by apply call_fuel_mono.
Qed.

End ClientFacts.

(** ** Counting in traces *)

Lemma invocations_app action (tr evs : list event) :
  invocations action (tr ++ evs) = (invocations action tr + invocations action evs)%nat.
Proof. unfold invocations. by rewrite List.filter_app, length_app. Qed.

Lemma logins_app (tr evs : list event) :
  logins (tr ++ evs) = (logins tr + logins evs)%nat.
Proof. unfold logins. by rewrite List.filter_app, length_app. Qed.

Lemma logins_snoc_invoke (tr : list event) rq out :
  logins (tr ++ [EvInvoke rq out]) = logins tr.
Proof. rewrite logins_app. unfold logins at 2. simpl. lia. Qed.

Lemma logins_snoc_login (tr : list event) :
  logins (tr ++ [EvLogin]) = S (logins tr).
Proof. rewrite logins_app. unfold logins at 2. simpl. lia. Qed.

Lemma invocations_snoc_login action (tr : list event) :
  invocations action (tr ++ [EvLogin]) = invocations action tr.
Proof. rewrite invocations_app. unfold invocations at 2. simpl. lia. Qed.

Lemma invocations_snoc_invoke action (tr : list event) rq out :
  invocations action (tr ++ [EvInvoke rq out])
  = (invocations action tr
     + if String.eqb (rq_action rq) action then 1 else 0)%nat.
Proof.
  rewrite invocations_app. unfold invocations at 2. simpl.
  by destruct (String.eqb (rq_action rq) action).
Qed.

(** ** What every run leaves alone *)

Section Stable.
Context {W : Type} (dev : Device W).
Implicit Types s : state W.

#[global] Instance extends_preorder : PreOrder (@extends W).
Proof.
  split.
  - intros s. unfold extends. repeat split; auto. exists []. by rewrite app_nil_r.
  - intros s1 s2 s3 (Ha & Hu & Hp & Hk & evs & Ht) (Ha' & Hu' & Hp' & Hk' & evs' & Ht').
    unfold extends. repeat split; try congruence; auto.
    exists (evs ++ evs')%list. by rewrite Ht', Ht, app_assoc.
Qed.

#[global] Instance keeps_cache_preorder : PreOrder (@keeps_cache W).
Proof.
  split.
  - by intros s _.
  - intros s1 s2 s3 H12 H23 H1. destruct (H12 H1) as [Ha Hn].
    destruct H23 as [Ha' Hn']; [by rewrite Ha|]. split; congruence.
Qed.

Lemma update_token_client action s :
  (snd (_update_nauth_token dev action s)) = s \/
  exists t w tok, snd (_update_nauth_token dev action s) = State (set_token t tok (client s)) w (trace s).
Proof.
  unfold _update_nauth_token.
  destruct (_private_key (client s)) as [[|a key]|]; auto.
  destruct (now dev (world s)) as [t w]. right. by eexists _, _, _.
Qed.

Lemma transport_trace method args kwargs s :
  exists rq out w,
    invoke dev rq (world s) = (out, w) /\
    rq = Request (fst (_client (client s))) (snd (_client (client s))) method args kwargs /\
    transport dev method args kwargs s
    = (match out with inl e => Raise e | inr r => Val r end,
       State (client s) w (trace s ++ [EvInvoke rq out])%list).
Proof.
  unfold transport. destruct (_client (client s)) as [loc headers]. simpl.
  destruct (invoke dev _ (world s)) as [out w] eqn:Hinv.
  eexists _, out, w. split; [exact Hinv|]. split; [reflexivity|].
  by destruct out.
Qed.

Local Ltac extends_step :=
  unfold extends; simpl; repeat split; auto using _hmac_truthy;
  first [ by eexists | exists []; by rewrite app_nil_r ].

Lemma emit_extends ev : preserves extends (emit (W := W) ev).
Proof. intros s. extends_step. Qed.

Lemma set_logged_in_extends b :
  preserves extends (modify_client (W := W) (set_logged_in b)).
Proof. intros s. extends_step. Qed.

Lemma set_cookie_extends ck :
  preserves extends (modify_client (W := W) (set_cookie ck)).
Proof. intros s. extends_step. Qed.

Lemma set_private_key_extends key message :
  preserves extends
    (modify_client (W := W) (set_private_key (_hmac key message))).
Proof. intros s. extends_step. Qed.

Lemma set_actions_extends acts :
  preserves extends (modify_client (W := W) (set_actions acts)).
Proof. intros s. extends_step. Qed.

Lemma _update_nauth_token_extends action :
  preserves extends (_update_nauth_token dev action).
Proof.
  intros s.
  destruct (update_token_client action s) as [->|(t & w & tok & ->)];
    [reflexivity|extends_step].
Qed.

Lemma transport_extends method args kwargs :
  preserves extends (transport dev method args kwargs).
Proof.
  intros s.
  destruct (transport_trace method args kwargs s)
    as (rq & out & w & _ & _ & ->).
  extends_step.
Qed.

Lemma populate_actions_extends fuel :
  (forall method args kwargs, True ->
     preserves extends (call dev fuel method args kwargs)) ->
  preserves extends (populate_actions (call dev fuel)).
Proof.
  intros Hcall. apply populate_actions_preserves;
    [apply _|apply set_actions_extends|auto].
Qed.

Local Ltac by_steps lem :=
  apply (lem extends _ (fun _ => True));
  auto using emit_extends, set_logged_in_extends, set_cookie_extends,
    set_private_key_extends, _update_nauth_token_extends,
    transport_extends, populate_actions_extends.

Lemma call_extends fuel method args kwargs :
  preserves extends (call dev fuel method args kwargs).
Proof. by_steps (@call_preserves W dev). Qed.

Lemma login_extends fuel : preserves extends (login dev fuel).
Proof. by_steps (@login_fuel_preserves W dev). Qed.

Lemma login_with_challenge_extends fuel resp :
  preserves extends (login_with_challenge (call dev fuel) resp).
Proof.
  by_steps (@login_with_challenge_fuel_preserves W dev).
Qed.

Lemma _call_method_extends method args kwargs :
  preserves extends (_call_method dev method args kwargs).
Proof. by_steps (@_call_method_preserves W dev). Qed.

Lemma ensure_login_extends fuel method :
  preserves extends (ensure_login (call dev fuel) method).
Proof.
  apply (preserves_bind extends); [apply (preserves_get_client extends)|].
  intros c. apply (preserves_if extends);
    [apply login_extends|apply (preserves_ret extends)].
Qed.

Lemma first_attempt_extends method args kwargs :
  preserves extends (first_attempt dev method args kwargs).
Proof.
  apply (preserves_catch extends).
  - apply (preserves_bind extends); [apply _call_method_extends|intros res].
    apply (preserves_if extends); apply (preserves_ret extends).
  - intros e k. destruct (is_session_signal e); intros [= <-].
    apply (preserves_ret extends).
Qed.

Lemma relogin_and_retry_extends fuel method args kwargs :
  preserves extends
    (relogin_and_retry dev (call dev fuel) method args kwargs).
Proof.
  apply (preserves_bind extends); [apply login_extends|intros _].
  apply _call_method_extends.
Qed.

Lemma device_actions_extends fuel : preserves extends (device_actions dev fuel).
Proof.
  apply (preserves_bind extends); [apply call_extends|intros resp].
  apply (preserves_bind extends); [apply (preserves_lift extends)|intros sa].
  destruct (SimpleXML.children sa);
    [apply (preserves_ret extends)|apply (preserves_raise extends)].
Qed.

End Stable.

(** ** Single steps of [call] *)

Section Steps.
Context {W : Type} (dev : Device W).
Implicit Types s : state W.

(** Once a run has reached [s2], whatever follows stays within [R] of it. *)
Lemma after_bind (R : relation (state W)) `{!PreOrder R} {A B}
    (m : M W A) (f : A -> M W B) s s2 :
  R s2 (snd (m s)) -> (forall a, preserves R (f a)) ->
  R s2 (snd (bind m f s)).
Proof.
  intros Hm Hf. unfold bind.
  destruct (m s) as [[a| |] s1]; simpl in *; [|done..].
  etransitivity; [exact Hm | apply Hf].
Qed.

Lemma after_catch (R : relation (state W)) `{!PreOrder R} {A}
    (m : M W A) (h : exn -> option (M W A)) s s2 :
  R s2 (snd (m s)) -> (forall e k, h e = Some k -> preserves R k) ->
  R s2 (snd (catch m h s)).
Proof.
  intros Hm Hh. unfold catch.
  destruct (m s) as [[a|e|] s1]; simpl in *; [done| |done].
  destruct (h e) as [k|] eqn:He; [|done].
  etransitivity; [exact Hm | by apply (Hh e)].
Qed.

(** [_call_method] signs, makes one remote call with the arguments it was
    given, and ends as the remote call ends. *)
Lemma _call_method_spec method args kwargs s :
  let s1 := snd (_update_nauth_token dev method s) in
  let rq := Request (fst (_client (client s1))) (snd (_client (client s1)))
                    method args kwargs in
  let out := fst (invoke dev rq (world s1)) in
  _call_method dev method args kwargs s
  = (match out with inl e => Raise e | inr r => Val r end,
     State (client s1) (snd (invoke dev rq (world s1)))
           (trace s ++ [EvInvoke rq out])%list)
  /\ trace s1 = trace s.
Proof.
  unfold _call_method, bind, transport.
  assert (Ht : trace (snd (_update_nauth_token dev method s)) = trace s
               /\ fst (_update_nauth_token dev method s) = Val tt).
  { unfold _update_nauth_token.
    destruct (_private_key (client s)) as [[|a key]|]; auto.
    by destruct (now dev (world s)). }
  destruct Ht as [Ht Hv].
  destruct (_update_nauth_token dev method s) as [r s1]. simpl in *. subst r.
  destruct (_client (client s1)) as [loc headers]. simpl.
  destruct (invoke dev _ (world s1)) as [out w]. simpl. rewrite Ht.
  split; [|done]. by destruct out.
Qed.

(** The headers of a request signed with stored secrets. *)
Lemma headers_with_secrets action s key ck :
  _private_key (client s) = Some key -> key <> EmptyString ->
  _cookie (client s) = Some ck -> ck <> EmptyString ->
  let t := fst (now dev (world s)) in
  let s1 := snd (_update_nauth_token dev action s) in
  snd (_client (client s1))
  = <["HNAP_AUTH" := _hmac key (auth_message t action) ++ " " ++ PyStr.dec t]>
      (<["Cookie" := "uid=" ++ ck]> ∅)
  /\ world s1 = snd (now dev (world s)).
Proof.
  intros Hkey Hne Hck Hnc. unfold _update_nauth_token. rewrite Hkey.
  destruct key as [|a key]; [done|].
  destruct (now dev (world s)) as [t w]. simpl.
  unfold _client. simpl. rewrite Hck.
  destruct ck as [|b ck]; [done|].
  pose proof (_hmac_truthy (String a key) (auth_message t action)) as Htok.
  destruct (_hmac (String a key) (auth_message t action)); [done|]. done.
Qed.

(** The headers of a request made before any secret exists. *)
Lemma headers_without_secrets action s :
  _private_key (client s) = None -> _cookie (client s) = None ->
  _auth_token (client s) = None ->
  snd (_client (client (snd (_update_nauth_token dev action s)))) = ∅.
Proof.
  intros Hkey Hck Htok. unfold _update_nauth_token. rewrite Hkey. simpl.
  unfold _client. by rewrite Hck, Htok.
Qed.

End Steps.

(** ** The dispatcher *)

Section Dispatcher.
Context {W : Type} (dev : Device W).
Implicit Types s : state W.

Lemma login_unfold call_ s :
  login_ call_ s
  = bind (call_ "Login" [] (login_request_kwargs (client s)))
         (login_with_challenge call_) (enter_login s).
Proof. reflexivity. Qed.

Lemma ensure_login_Login call_ s :
  ensure_login call_ "Login" s = (Val tt, s).
Proof.
  unfold ensure_login, bind, get_client. simpl.
  by rewrite andb_false_r.
Qed.

Lemma ensure_login_session call_ method s :
  PyStr.truthy (_private_key (client s)) = true ->
  ensure_login call_ method s = (Val tt, s).
Proof. intros Hk. unfold ensure_login, bind, get_client. by rewrite Hk. Qed.

Lemma ensure_login_fresh call_ method s :
  PyStr.truthy (_private_key (client s)) = false -> method <> "Login" ->
  ensure_login call_ method s = login_ call_ s.
Proof.
  intros Hk Hm. unfold ensure_login, bind, get_client. rewrite Hk.
  apply String.eqb_neq in Hm. by rewrite Hm.
Qed.

Lemma first_attempt_signal method args kwargs s e s1 :
  _call_method dev method args kwargs s = (Raise e, s1) ->
  is_session_signal e = true ->
  first_attempt dev method args kwargs s = (Val None, s1).
Proof.
  intros Hc He. unfold first_attempt, catch.
  rewrite (bind_raise _ _ _ _ _ Hc). by rewrite He.
Qed.

Lemma first_attempt_other method args kwargs s e s1 :
  _call_method dev method args kwargs s = (Raise e, s1) ->
  is_session_signal e = false ->
  first_attempt dev method args kwargs s = (Raise e, s1).
Proof.
  intros Hc He. unfold first_attempt, catch.
  rewrite (bind_raise _ _ _ _ _ Hc). by rewrite He.
Qed.

Lemma first_attempt_reply method args kwargs s res s1 :
  _call_method dev method args kwargs s = (Val res, s1) ->
  first_attempt dev method args kwargs s
  = (Val (if SimpleXML.contains "body" res then None else Some res), s1).
Proof.
  intros Hc. unfold first_attempt, catch.
  rewrite (bind_val _ _ _ _ _ Hc). by destruct (SimpleXML.contains _ _).
Qed.

Lemma call_after_ensure_login n method args kwargs s s1 :
  ensure_login (call dev n) method s = (Val tt, s1) ->
  call dev (S n) method args kwargs s
  = bind (first_attempt dev method args kwargs)
      (fun r => match r with
                | Some res => ret res
                | None => relogin_and_retry dev (call dev n) method args kwargs
                end) s1.
Proof. intros He. simpl. unfold call_body. by rewrite (bind_val _ _ _ _ _ He). Qed.

Lemma relogin_and_retry_unfold n method args kwargs s :
  relogin_and_retry dev (call dev n) method args kwargs s
  = match login dev n s with
    | (Val _, s') => _call_method dev method args kwargs s'
    | (Raise e, s') => (Raise e, s')
    | (OutOfFuel, s') => (OutOfFuel, s')
    end.
Proof. reflexivity. Qed.

Lemma _call_method_once method args kwargs s :
  exists rq out,
    trace (snd (_call_method dev method args kwargs s))
    = (trace s ++ [EvInvoke rq out])%list
    /\ rq_action rq = method /\ rq_args rq = args /\ rq_kwargs rq = kwargs
    /\ fst (_call_method dev method args kwargs s)
       = match out with inl e => Raise e | inr r => Val r end.
Proof.
  destruct (_call_method_spec dev method args kwargs s) as [-> _].
  by eexists _, _.
Qed.

(** C9. A call for an action other than ['Login'] on a client that holds
    no private key enters [login] before anything else; when that
    handshake raises, the exception (an [AuthenticationError] included) is
    the outcome of the call, which ends in the state the handshake left:
    the action is neither attempted nor retried. *)
Theorem call_without_session_logs_in_first
    n method args kwargs s :
  PyStr.truthy (_private_key (client s)) = false ->
  method <> "Login" ->
  (exists evs,
      trace (snd (call dev (S n) method args kwargs s))
      = (trace s ++ EvLogin :: evs)%list)
  /\ (forall e s',
        login dev n s = (Raise e, s') ->
        call dev (S n) method args kwargs s = (Raise e, s')).
Proof.
  intros Hk Hm. split.
  - assert (Hx : extends (enter_login s)
                   (snd (call dev (S n) method args kwargs s))).
    { simpl. unfold call_body.
      apply (after_bind extends).
      - rewrite ensure_login_fresh by done. rewrite login_unfold.
        apply (after_bind extends); [apply call_extends|].
        apply login_with_challenge_extends.
      - intros _. apply (preserves_bind extends);
          [apply first_attempt_extends|intros [res|]].
        + apply (preserves_ret extends).
        + apply relogin_and_retry_extends. }
    destruct Hx as (_ & _ & _ & _ & evs & ->). exists evs.
    simpl. by rewrite <- app_assoc.
  - intros e s' Hl. simpl. unfold call_body.
    apply bind_raise. by rewrite ensure_login_fresh.
Qed.

(** C1 (amended).  When the first attempt of a call for an action other
    than ['Login'] raises a session-invalidation signal, the call goes on
    with one [login()] in the state the failed attempt left.  If that
    [login()] returns, the call is issued again once, with the same
    method and arguments, and its value or exception is the outcome of
    [call]; if [login()] raises, its exception is the outcome and the
    call is not issued again. *)
Theorem call_retries_once_after_signal
    n method args kwargs s s1 e s2 :
  method <> "Login" ->
  ensure_login (call dev n) method s = (Val tt, s1) ->
  _call_method dev method args kwargs s1 = (Raise e, s2) ->
  is_session_signal e = true ->
  call dev (S n) method args kwargs s
  = match login dev n s2 with
    | (Val _, s3) => _call_method dev method args kwargs s3
    | (Raise e', s3) => (Raise e', s3)
    | (OutOfFuel, s3) => (OutOfFuel, s3)
    end
  /\ forall s3, exists rq out,
      trace (snd (_call_method dev method args kwargs s3))
      = (trace s3 ++ [EvInvoke rq out])%list
      /\ rq_action rq = method /\ rq_args rq = args /\ rq_kwargs rq = kwargs
      /\ fst (_call_method dev method args kwargs s3)
         = match out with inl e' => Raise e' | inr r => Val r end.
Proof.
  intros _ Hpre Hfail Hsig. split; [|intros s3; apply _call_method_once].
  rewrite (call_after_ensure_login _ _ _ _ _ _ Hpre).
  rewrite (bind_val _ _ _ _ _ (first_attempt_signal _ _ _ _ _ _ Hfail Hsig)).
  apply relogin_and_retry_unfold.
Qed.

(** C2 (amended).  A first attempt that succeeds with a reply holding no
    [body] element is the value of the call, with no login and no second
    attempt.  A reply that holds a [body] element (an HTML page) is
    handled like a session-invalidation signal: for an action other than
    ['Login'] the call goes on with one [login()] and, if that returns,
    issues the call again once and ends as that attempt ends. *)
Theorem call_reply_with_body_forces_login
    n method args kwargs s s1 res s2 :
  ensure_login (call dev n) method s = (Val tt, s1) ->
  _call_method dev method args kwargs s1 = (Val res, s2) ->
  (SimpleXML.contains "body" res = false ->
   call dev (S n) method args kwargs s = (Val res, s2))
  /\ (SimpleXML.contains "body" res = true -> method <> "Login" ->
      call dev (S n) method args kwargs s
      = match login dev n s2 with
        | (Val _, s3) => _call_method dev method args kwargs s3
        | (Raise e', s3) => (Raise e', s3)
        | (OutOfFuel, s3) => (OutOfFuel, s3)
        end).
Proof.
  intros Hpre Hok.
  rewrite (call_after_ensure_login _ _ _ _ _ _ Hpre).
  rewrite (bind_val _ _ _ _ _ (first_attempt_reply _ _ _ _ _ _ Hok)).
  split; intros ->; [reflexivity|intros _].
  apply relogin_and_retry_unfold.
Qed.

(** *** The requests of a handshake *)

(** The first thing [login] leaves in the trace is its own entry and the
    ['Login'] request it signs with whatever the client holds then. *)
Lemma login_first_request n s :
  let s1 := snd (_update_nauth_token dev "Login" (enter_login s)) in
  let rq := Request (fst (_client (client s1))) (snd (_client (client s1)))
                    "Login" [] (login_request_kwargs (client s)) in
  exists out evs,
    trace (snd (login dev (S n) s))
    = (trace s ++ EvLogin :: EvInvoke rq out :: evs)%list.
Proof.
  intros s1 rq.
  pose (kw := login_request_kwargs (client s)).
  assert (Hx : extends (snd (_call_method dev "Login" [] kw (enter_login s)))
                       (snd (login dev (S n) s))).
  { unfold login. rewrite login_unfold. fold kw.
    apply (after_bind extends); [|apply login_with_challenge_extends].
    simpl call. unfold call_body.
    rewrite (bind_val _ _ _ _ _ (ensure_login_Login _ _)).
    apply (after_bind extends).
    - apply (after_catch extends).
      + apply (after_bind extends); [reflexivity|intros res].
        apply (preserves_if extends); apply (preserves_ret extends).
      + intros e k. destruct (is_session_signal e); intros [= <-].
        apply (preserves_ret extends).
    - intros [res|]; [apply (preserves_ret extends)|].
      apply relogin_and_retry_extends. }
  destruct (_call_method_spec dev "Login" [] kw (enter_login s)) as [Hc _].
  rewrite Hc in Hx. destruct Hx as (_ & _ & _ & _ & evs & ->).
  eexists _, evs. simpl. by rewrite <- !app_assoc.
Qed.

(** C5.  With a private key and a cookie stored, the request that
    [_call_method] makes for an action carries exactly two headers:
    [Cookie] with the stored cookie, and [HNAP_AUTH] with the token, a
    space and the time stamp, where the time stamp is the clock reading
    in whole seconds and the token is the upper-case hexadecimal HMAC-MD5
    under the private key of the decimal time stamp, a double quote, the
    base action URL, the action and a double quote. *)
Theorem per_call_headers action args kwargs s key ck :
  _private_key (client s) = Some key -> key <> EmptyString ->
  _cookie (client s) = Some ck -> ck <> EmptyString ->
  let t := fst (now dev (world s)) in
  let message :=
    PyStr.dec t ++ dquote ++ ACTION_BASE_URL ++ action ++ dquote in
  let token :=
    PyStr.upper
      (PyStr.hex (HMAC.hmac_md5 (PyStr.encode key) (PyStr.encode message))) in
  exists rq out,
    trace (snd (_call_method dev action args kwargs s))
    = (trace s ++ [EvInvoke rq out])%list
    /\ rq_action rq = action
    /\ rq_headers rq
       = <["HNAP_AUTH" := token ++ " " ++ PyStr.dec t]>
           (<["Cookie" := "uid=" ++ ck]> ∅).
Proof.
  intros Hkey Hne Hck Hnc t message token.
  destruct (_call_method_spec dev action args kwargs s) as [-> _].
  destruct (headers_with_secrets dev action s key ck) as [Hh _]; try done.
  eexists _, _. split; [reflexivity|]. split; [reflexivity|]. exact Hh.
Qed.

(** C3 (amended).  [call] does not clear the stored secrets when it sees
    a session-invalidation signal: the [login()] it runs next signs its
    first ['Login'] request with them, so that request carries the
    [Cookie] header of the old cookie and an [HNAP_AUTH] header derived
    from the old private key.  Only the handshake of a client that holds
    no secrets yet sends its first request without these headers. *)
Theorem relogin_request_carries_stored_secrets
    n method args kwargs s e s2 key ck :
  _private_key (client s) = Some key -> key <> EmptyString ->
  _cookie (client s) = Some ck -> ck <> EmptyString ->
  method <> "Login" ->
  _call_method dev method args kwargs s = (Raise e, s2) ->
  is_session_signal e = true ->
  let t := fst (now dev (world s2)) in
  (exists rq out evs,
      trace (snd (call dev (S (S n)) method args kwargs s))
      = (trace s2 ++ EvLogin :: EvInvoke rq out :: evs)%list
      /\ rq_action rq = "Login"
      /\ rq_kwargs rq = login_request_kwargs (client s)
      /\ rq_headers rq
         = <["HNAP_AUTH" :=
               _hmac key (auth_message t "Login") ++ " " ++ PyStr.dec t]>
             (<["Cookie" := "uid=" ++ ck]> ∅))
  /\ (forall s0 : state W,
        _private_key (client s0) = None -> _cookie (client s0) = None ->
        _auth_token (client s0) = None ->
        exists rq out evs,
          trace (snd (login dev (S n) s0))
          = (trace s0 ++ EvLogin :: EvInvoke rq out :: evs)%list
          /\ rq_action rq = "Login"
          /\ rq_kwargs rq = login_request_kwargs (client s0)
          /\ rq_headers rq = ∅).
Proof.
  intros Hkey Hne Hck Hnc _ Hfail Hsig t. split.
  - assert (Hpre : ensure_login (call dev (S n)) method s = (Val tt, s)).
    { apply ensure_login_session. rewrite Hkey. by destruct key. }
    rewrite (call_after_ensure_login _ _ _ _ _ _ Hpre).
    rewrite (bind_val _ _ _ _ _ (first_attempt_signal _ _ _ _ _ _ Hfail Hsig)).
    assert (Hx : extends (snd (login dev (S n) s2))
                   (snd (relogin_and_retry dev (call dev (S n))
                           method args kwargs s2))).
    { apply (after_bind extends); [reflexivity|intros _].
      apply _call_method_extends. }
    destruct Hx as (_ & _ & _ & _ & evs' & ->).
    destruct (login_first_request n s2) as (out & evs & ->).
    (* the client after the failed attempt holds the secrets of [s] *)
    destruct (_call_method_spec dev method args kwargs s) as [Hc _].
    rewrite Hfail in Hc. injection Hc as _ Hs2.
    assert (Hcl : _private_key (client s2) = Some key
                  /\ _cookie (client s2) = Some ck
                  /\ username (client s2) = username (client s)).
    { rewrite Hs2. simpl.
      destruct (update_token_client dev method s)
        as [->|(t' & w' & tok & ->)]; by simpl. }
    destruct Hcl as (Hkey2 & Hck2 & Hu2).
    destruct (headers_with_secrets dev "Login" (enter_login s2) key ck)
      as [Hh _]; try done.
    eexists _, out, (evs ++ evs')%list. split; [by rewrite <- app_assoc|].
    split; [reflexivity|]. split; [|exact Hh].
    simpl. unfold login_request_kwargs. by rewrite Hu2.
  - intros s0 Hk0 Hc0 Ht0.
    destruct (login_first_request n s0) as (out & evs & ->).
    eexists _, out, evs. split; [reflexivity|]. split; [reflexivity|].
    split; [reflexivity|].
    by apply (headers_without_secrets dev "Login" (enter_login s0)).
Qed.

End Dispatcher.

(** ** Action names *)

Lemma rfind_from_absent c s i :
  ~ In c (list_ascii_of_string s) -> PyStr.rfind_from i c s = -1.
Proof.
  revert i. induction s as [|a s IH]; intros i Hn; simpl; [done|].
  rewrite IH by (intros H; apply Hn; by right).
  destruct (Ascii.eqb_spec a c) as [->|]; [|done].
  destruct Hn. by left.
Qed.

Lemma rfind_from_last c prefix last i :
  0 <= i -> ~ In c (list_ascii_of_string last) ->
  PyStr.rfind_from i c (prefix ++ String c last)
  = i + Z.of_nat (String.length prefix).
Proof.
  intros Hi Hn. revert i Hi.
  induction prefix as [|a prefix IH]; intros i Hi; simpl.
  - rewrite rfind_from_absent by done. simpl.
    rewrite Ascii.eqb_refl. lia.
  - rewrite IH by lia.
    destruct (Z.leb_spec 0 (i + 1 + Z.of_nat (String.length prefix))); lia.
Qed.

Lemma drop_prefix c prefix last :
  PyStr.drop (S (String.length prefix)) (prefix ++ String c last) = last.
Proof. induction prefix as [|a prefix IH]; simpl; [done|exact IH]. Qed.

Lemma _extract_last prefix last :
  ~ In "/"%char (list_ascii_of_string last) ->
  _extract (prefix ++ "/" ++ last) = last.
Proof.
  intros Hn. unfold _extract, PyStr.rfind.
  change ("/" ++ last) with (String "/" last).
  rewrite rfind_from_last by done.
  replace (Z.to_nat (0 + Z.of_nat (String.length prefix) + 1))
    with (S (String.length prefix)) by lia.
  apply drop_prefix.
Qed.

Lemma _extract_whole url :
  ~ In "/"%char (list_ascii_of_string url) -> _extract url = url.
Proof. intros Hn. unfold _extract, PyStr.rfind. by rewrite rfind_from_absent. Qed.

Section Discovery.
Context {W : Type} (dev : Device W).
Implicit Types s : state W.

Lemma device_actions_reply call_ s resp s' soap_actions entries :
  call_ "GetDeviceSettings" [] [] s = (Val resp, s') ->
  SimpleXML.getattr resp "SOAPActions" = inr soap_actions ->
  SimpleXML.children soap_actions = Some entries ->
  device_actions_ (W := W) call_ s
  = (Val (map (fun action => _extract (SimpleXML.str action)) entries), s').
Proof.
  intros Hc Hsa Hch. unfold device_actions_.
  rewrite (bind_val _ _ _ _ _ Hc), Hsa. simpl. unfold bind, ret. simpl.
  by rewrite Hch.
Qed.

(** C10.  [device_actions] returns one name per entry of the reply, in
    the order of the entries; the name of an entry is what follows its
    last ['/'], and the whole entry when it holds no ['/']. *)
Theorem device_actions_extracts_names fuel s resp s' soap_actions entries :
  call dev fuel "GetDeviceSettings" [] [] s = (Val resp, s') ->
  SimpleXML.getattr resp "SOAPActions" = inr soap_actions ->
  SimpleXML.children soap_actions = Some entries ->
  exists names,
    device_actions dev fuel s = (Val names, s')
    /\ length names = length entries
    /\ forall (i : nat) entry,
        entries !! i = Some entry ->
        exists name,
          names !! i = Some name
          /\ (forall prefix last,
                SimpleXML.str entry = prefix ++ "/" ++ last ->
                ~ In "/"%char (list_ascii_of_string last) ->
                name = last)
          /\ (~ In "/"%char (list_ascii_of_string (SimpleXML.str entry)) ->
              name = SimpleXML.str entry).
Proof.
  intros Hc Hsa Hch. eexists. split; [|split].
  - by apply (device_actions_reply _ _ _ _ _ _ Hc Hsa Hch).
  - by rewrite length_map.
  - intros i entry Hi. eexists. split; [|split].
    + by rewrite list_lookup_fmap, Hi.
    + intros prefix last -> Hn. by apply _extract_last.
    + apply _extract_whole.
Qed.

(** *** The private key *)

Lemma login_with_challenge_unfold call_ s resp lr ch pk ck :
  SimpleXML.getattr resp "LoginResponse" = inr lr ->
  SimpleXML.getattr lr "Challenge" = inr ch ->
  SimpleXML.getattr lr "PublicKey" = inr pk ->
  SimpleXML.getattr lr "Cookie" = inr ck ->
  let key := _hmac (SimpleXML.str pk ++ password (client s)) (SimpleXML.str ch) in
  login_with_challenge (W := W) call_ resp s
  = bind (login_second_stage call_ (SimpleXML.str ch) key)
      (fun _ => modify_client (set_logged_in true))
      (State (set_private_key key (set_cookie (SimpleXML.str ck) (client s)))
             (world s) (trace s)).
Proof.
  intros Hlr Hch Hpk Hck. unfold login_with_challenge.
  rewrite Hlr. simpl. unfold bind at 1. simpl.
  rewrite Hch. unfold bind at 1. simpl.
  rewrite Hpk. unfold bind at 1. simpl.
  rewrite Hck. reflexivity.
Qed.

(** C4.  When the first ['Login'] request of a handshake is answered with
    a challenge, a public key and a cookie, [login] goes into its second
    stage with, as stored private key, the upper-case hexadecimal
    HMAC-MD5 of the challenge under the key made of the public key
    followed by the password: a function of these three strings alone,
    32 digits long. *)
Theorem login_stores_hmac_private_key fuel s resp s1 lr ch pk ck :
  call dev fuel "Login" [] (login_request_kwargs (client s)) (enter_login s)
  = (Val resp, s1) ->
  SimpleXML.getattr resp "LoginResponse" = inr lr ->
  SimpleXML.getattr lr "Challenge" = inr ch ->
  SimpleXML.getattr lr "PublicKey" = inr pk ->
  SimpleXML.getattr lr "Cookie" = inr ck ->
  let derive := fun public_key password challenge : string =>
    PyStr.upper
      (PyStr.hex (HMAC.hmac_md5 (PyStr.encode (public_key ++ password))
                                (PyStr.encode challenge))) in
  let key := derive (SimpleXML.str pk) (password (client s)) (SimpleXML.str ch) in
  let s2 := State (set_private_key key (set_cookie (SimpleXML.str ck) (client s1)))
                  (world s1) (trace s1) in
  login dev fuel s
  = bind (login_second_stage (call dev fuel) (SimpleXML.str ch) key)
      (fun _ => modify_client (set_logged_in true)) s2
  /\ _private_key (client s2) = Some key
  /\ String.length key = 32%nat
  /\ Forall upper_hex_digit (list_ascii_of_string key).
Proof.
  intros Hcall Hlr Hch Hpk Hck derive key s2.
  assert (Hpw : password (client s1) = password (client s)).
  { pose proof (call_extends dev fuel "Login" [] (login_request_kwargs (client s))
                  (enter_login s)) as Hx.
    rewrite Hcall in Hx. by destruct Hx as (_ & _ & Hp & _). }
  split; [|split; [done|split]].
  - unfold login. rewrite login_unfold, (bind_val _ _ _ _ _ Hcall).
    rewrite (login_with_challenge_unfold _ _ _ _ _ _ _ Hlr Hch Hpk Hck).
    subst s2 key derive. simpl. by rewrite Hpw.
  - apply _hmac_length.
  - apply _hmac_upper_hex.
Qed.
End Discovery.

(** ** A handshake whose second stage fails in the transport *)

(** Whatever the device, a ['Login'] request that raises a
    session-invalidation signal sends [call] into [login] again. *)
Lemma call_Login_signal_reenters_login {W} (dev : Device W)
    n args kwargs (s s1 : state W) e :
  _call_method dev "Login" args kwargs s = (Raise e, s1) ->
  is_session_signal e = true ->
  call dev (S n) "Login" args kwargs s
  = match login dev n s1 with
    | (Val _, s2) => _call_method dev "Login" args kwargs s2
    | (Raise e', s2) => (Raise e', s2)
    | (OutOfFuel, s2) => (OutOfFuel, s2)
    end.
Proof.
  intros Hfail Hsig.
  rewrite (call_after_ensure_login _ _ _ _ _ _ _ (ensure_login_Login _ _)).
  rewrite (bind_val _ _ _ _ _ (first_attempt_signal _ _ _ _ _ _ _ Hfail Hsig)).
  apply relogin_and_retry_unfold.
Qed.

Lemma login_down_attempt kwargs (s : state Z) :
  exists s',
    _call_method Examples.login_down "Login" [] kwargs s
    = (if Examples.kwarg_is "Action" "request" kwargs
       then Val (Examples.challenge_reply "abc123" "XYZ" "c00kie")
       else Raise HTTPError, s')
    /\ logins (trace s') = logins (trace s).
Proof.
  destruct (_call_method_spec Examples.login_down "Login" [] kwargs s)
    as [-> _].
  simpl. unfold Examples.login_down_reply. simpl.
  destruct (Examples.kwarg_is "Action" "request" kwargs);
    (eexists; split; [reflexivity|]);
    apply logins_snoc_invoke.
Qed.

Lemma login_second_stage_out_of_fuel {W} call_ challenge key (s s' : state W) :
  call_ "Login" [] (login_login_kwargs (client s) (_hmac key challenge)) s
  = (OutOfFuel, s') ->
  login_second_stage call_ challenge key s = (OutOfFuel, s').
Proof.
  intros Hc. unfold login_second_stage, catch.
  rewrite (bind_val get_client _ s (client s) s eq_refl).
  by rewrite (bind_out_of_fuel _ _ _ _ Hc).
Qed.

(** C6 (the code at the failing input).  Against a device that hands out
    the challenge and answers the login itself with an HTTP error status,
    [login] never ends: whatever the nesting depth allowed, the run uses it
    up, having entered [login] once per level, and has raised nothing. *)
Theorem login_reenters_login_without_bound (n : nat) (s : state Z) :
  fst (login Examples.login_down n s) = OutOfFuel
  /\ logins (trace (snd (login Examples.login_down n s)))
     = (logins (trace s) + S n)%nat.
Proof.
  revert s. induction n as [|n IH]; intros s.
  - split; [reflexivity|]. simpl. rewrite logins_snoc_login. lia.
  - unfold login. rewrite login_unfold.
    (* the first request is answered with the challenge *)
    destruct (login_down_attempt (login_request_kwargs (client s))
                (enter_login s)) as (s1 & Hreq & Hl1).
    change (Examples.kwarg_is _ _ _) with true in Hreq.
    assert (Hc1 : call Examples.login_down (S n) "Login" []
                    (login_request_kwargs (client s)) (enter_login s)
                  = (Val (Examples.challenge_reply "abc123" "XYZ" "c00kie"), s1)).
    { rewrite (call_after_ensure_login _ _ _ _ _ _ _
                 (ensure_login_Login _ _)).
      by rewrite (bind_val _ _ _ _ _ (first_attempt_reply _ _ _ _ _ _ _ Hreq)). }
    rewrite (bind_val _ _ _ _ _ Hc1).
    rewrite (login_with_challenge_unfold _ _ _
               (Elem "LoginResponse" EmptyString
                  [Examples.leaf "LoginResult" "OK"; Examples.leaf "Challenge" "abc123";
                   Examples.leaf "Cookie" "c00kie"; Examples.leaf "PublicKey" "XYZ"])
               (Examples.leaf "Challenge" "abc123")
               (Examples.leaf "PublicKey" "XYZ")
               (Examples.leaf "Cookie" "c00kie")) by reflexivity.
    set (key := _hmac _ _).
    set (s2 := State _ _ _).
    (* the second request raises, and [call] runs [login] again *)
    destruct (login_down_attempt
                (login_login_kwargs (client s2) (_hmac key "abc123")) s2)
      as (s3 & Hreq2 & Hl3).
    change (Examples.kwarg_is _ _ _) with false in Hreq2.
    destruct (IH s3) as [Hfst Hlog].
    assert (Hc2 : call Examples.login_down (S n) "Login" []
                    (login_login_kwargs (client s2) (_hmac key "abc123")) s2
                  = (OutOfFuel, snd (login Examples.login_down n s3))).
    { rewrite (call_after_ensure_login _ _ _ _ _ _ _
                 (ensure_login_Login _ _)).
      rewrite (bind_val _ _ _ _ _
                 (first_attempt_signal _ _ _ _ _ _ _ Hreq2 eq_refl)).
      rewrite relogin_and_retry_unfold.
      destruct (login Examples.login_down n s3) as [r s4].
      simpl in Hfst. by subst r. }
    rewrite (bind_out_of_fuel _ _ _ _
               (login_second_stage_out_of_fuel _ _ _ _ _ Hc2)).
    split; [reflexivity|].
    cbn [snd].
    rewrite Hlog, Hl3. subst s2. simpl. rewrite Hl1. simpl.
    rewrite logins_snoc_login. lia.
Qed.

(** The same against a device that cannot be reached at all. *)
Lemma login_unreachable_never_ends n (s : state Examples.scripted) :
  Examples.script (world s) = [] ->
  fst (login Examples.scripted_device n s) = OutOfFuel
  /\ logins (trace (snd (login Examples.scripted_device n s)))
     = (logins (trace s) + S n)%nat.
Proof.
  revert s. induction n as [|n IH]; intros s Hs.
  - split; [reflexivity|]. simpl. rewrite logins_snoc_login. lia.
  - unfold login. rewrite login_unfold.
    set (kw := login_request_kwargs (client s)).
    destruct (_call_method_spec Examples.scripted_device "Login" [] kw
                (enter_login s)) as [Hc _].
    assert (Hw : Examples.script
                   (world (snd (_update_nauth_token Examples.scripted_device
                                  "Login" (enter_login s)))) = []).
    { unfold _update_nauth_token. simpl.
      destruct (_private_key (client s)) as [[|a k]|]; exact Hs. }
    cbn [invoke Examples.scripted_device] in Hc. rewrite Hw in Hc.
    cbn [fst snd] in Hc.
    pose proof (call_Login_signal_reenters_login _ n _ _ _ _ _ Hc eq_refl)
      as Hcall.
    match type of Hcall with
    | context [login _ n ?s1] => destruct (IH s1 eq_refl) as [Hfst Hlog]
    end.
    match type of Hfst with
    | fst ?run = _ => destruct run as [r s2]
    end.
    simpl in Hfst, Hlog. subst r.
    rewrite (bind_out_of_fuel _ _ _ _ Hcall).
    split; [reflexivity|]. cbn [snd].
    rewrite Hlog, logins_snoc_invoke. simpl.
    rewrite logins_snoc_login. lia.
Qed.

(** ** The cache of action names *)

Section Cache.
Context {W : Type} (dev : Device W).
Implicit Types s : state W.

Lemma bind_val_inv {A B} (m : M W A) (f : A -> M W B) s b s' :
  bind m f s = (Val b, s') ->
  exists a s1, m s = (Val a, s1) /\ f a s1 = (Val b, s').
Proof.
  unfold bind. destruct (m s) as [[a| |] s1]; [|done..].
  intros H. by exists a, s1.
Qed.

Lemma extends_invocations action s s' :
  extends s s' ->
  (invocations action (trace s) <= invocations action (trace s'))%nat.
Proof.
  intros (_ & _ & _ & _ & evs & ->). rewrite invocations_app. lia.
Qed.

Lemma _call_method_invocations method args kwargs s :
  invocations method (trace (snd (_call_method dev method args kwargs s)))
  = S (invocations method (trace s)).
Proof.
  destruct (_call_method_spec dev method args kwargs s) as [-> _].
  simpl. rewrite invocations_snoc_invoke. simpl.
  rewrite String.eqb_refl. lia.
Qed.

(** A call that returns has made the remote call it was asked for. *)
Lemma call_val_invocations fuel method args kwargs s r s' :
  call dev fuel method args kwargs s = (Val r, s') ->
  (invocations method (trace s) < invocations method (trace s'))%nat.
Proof.
  destruct fuel as [|n]; [done|]. simpl. unfold call_body. intros H.
  apply bind_val_inv in H as ([] & s1 & Hpre & H).
  apply bind_val_inv in H as (o & s2 & Hfirst & H).
  pose proof (ensure_login_extends dev n method s) as H1.
  rewrite Hpre in H1.
  apply (extends_invocations method) in H1.
  destruct o as [res|].
  - injection H as <- <-.
    unfold first_attempt, catch, bind in Hfirst.
    pose proof (_call_method_invocations method args kwargs s1) as Hn.
    destruct (_call_method dev method args kwargs s1) as [[res'|e|] s2'];
      simpl in *.
    + destruct (negb _); injection Hfirst as _ <-; lia.
    + by destruct (is_session_signal e).
    + done.
  - pose proof (first_attempt_extends dev method args kwargs s1) as H2.
    rewrite Hfirst in H2. apply (extends_invocations method) in H2.
    apply bind_val_inv in H as ([] & s3 & Hlogin & H).
    pose proof (login_extends dev n s2) as H3. unfold login in H3.
    rewrite Hlogin in H3. apply (extends_invocations method) in H3.
    pose proof (_call_method_invocations method args kwargs s3) as Hn.
    rewrite H in Hn. simpl in *. lia.
Qed.

#[global] Instance discovers_preorder : PreOrder (@discovers W).
Proof.
  split.
  - intros s. split; [lia|done].
  - intros s1 s2 s3 [Hle Hlt] [Hle' Hlt']. split; [lia|].
    intros Hne.
    destruct (decide (actions (client s2) = actions (client s1))) as [Heq|Hne'].
    + rewrite <- Heq in Hne. specialize (Hlt' Hne). lia.
    + specialize (Hlt Hne'). lia.
Qed.

(** Across a handshake the cache changes only if a discovery call is
    made. *)
Lemma login_discovers fuel : preserves discovers (login dev fuel).
Proof.
  apply (login_fuel_preserves dev discovers (fun _ => True)).
  - done.
  - intros s. unfold discovers; simpl.
    rewrite invocations_snoc_login. split; [lia|done].
  - intros b s. split; [simpl; lia|done].
  - intros ck s. split; [simpl; lia|done].
  - intros key message s. split; [simpl; lia|done].
  - intros action s.
    destruct (update_token_client dev action s) as [->|(t & w & tok & ->)];
      [reflexivity|split; [simpl; lia|done]].
  - intros method args kwargs _ s.
    destruct (transport_trace dev method args kwargs s)
      as (rq & out & w & _ & _ & ->).
    split; [|done]. simpl. rewrite invocations_snoc_invoke. lia.
  - intros n Hcall s.
    pose proof (Hcall "GetDeviceSettings" [] [] I s) as Hd.
    unfold populate_actions, device_actions_, bind, get_client, lift.
    destruct (negb _); [|reflexivity].
    destruct (call dev n "GetDeviceSettings" [] [] s) as [[resp| |] s1] eqn:Hc;
      simpl in *; [|done..].
    apply call_val_invocations in Hc.
    destruct (SimpleXML.getattr resp "SOAPActions") as [e|sa]; simpl;
      [done|].
    destruct (SimpleXML.children sa); simpl; [|done].
    split; simpl; [lia|intros _; lia].
Qed.

(** Across a handshake a filled cache stays, and no discovery call is
    made. *)
Lemma login_keeps_cache fuel : preserves keeps_cache (login dev fuel).
Proof.
  apply (login_fuel_preserves dev keeps_cache
           (fun method => method <> "GetDeviceSettings")).
  - done.
  - intros s _. simpl. by rewrite invocations_snoc_login.
  - by intros b s _.
  - by intros ck s _.
  - by intros key message s _.
  - intros action s _.
    by destruct (update_token_client dev action s)
      as [->|(t & w & tok & ->)].
  - intros method args kwargs Hm s _.
    destruct (transport_trace dev method args kwargs s)
      as (rq & out & w & _ & -> & ->).
    simpl. rewrite invocations_snoc_invoke. simpl.
    apply String.eqb_neq in Hm. rewrite Hm. split; [done|lia].
  - intros n _ s Hs. unfold populate_actions, bind, get_client.
    by rewrite Hs.
Qed.

(** A handshake that returns leaves the cache filled. *)
Lemma login_val_cache fuel s s' :
  login dev fuel s = (Val tt, s') ->
  actions_truthy (actions (client s')) = true.
Proof.
  unfold login. rewrite login_unfold. intros H.
  apply bind_val_inv in H as (resp & s1 & _ & H).
  unfold login_with_challenge in H.
  apply bind_val_inv in H as (lr & s2 & _ & H).
  apply bind_val_inv in H as (ch & s3 & _ & H).
  apply bind_val_inv in H as (pk & s4 & _ & H).
  apply bind_val_inv in H as (ck & s5 & _ & H).
  apply bind_val_inv in H as ([] & s6 & _ & H).
  apply bind_val_inv in H as (c & s7 & _ & H).
  apply bind_val_inv in H as ([] & s8 & _ & H).
  apply bind_val_inv in H as ([] & s9 & Hstage & H).
  injection H as <-. simpl.
  unfold login_second_stage, catch in Hstage.
  match type of Hstage with
  | match ?body s8 with _ => _ end = _ =>
      destruct (body s8) as [[[]|e|] s10] eqn:Hbody
  end; [|by destruct e|done].
  injection Hstage as <-.
  apply bind_val_inv in Hbody as (c' & s11 & _ & H).
  apply bind_val_inv in H as (resp2 & s12 & _ & H).
  apply bind_val_inv in H as (result & s13 & _ & H).
  destruct (negb (String.eqb _ _)); [done|].
  unfold populate_actions in H.
  apply bind_val_inv in H as (c'' & s14 & Hget & H).
  injection Hget as <- <-.
  destruct (actions_truthy (actions (client s13))) eqn:Hcache; simpl in H.
  - by injection H as <-.
  - apply bind_val_inv in H as (acts & s15 & Hda & H).
    injection H as <-. simpl.
    unfold device_actions_ in Hda.
    apply bind_val_inv in Hda as (resp3 & s16 & _ & Hda).
    apply bind_val_inv in Hda as (sa & s17 & _ & Hda).
    unfold SimpleXML.children in Hda.
    destruct (SimpleXML.kids sa) as [|k ks]; [done|].
    by injection Hda as <- _.
Qed.

(** C7 (amended).  A handshake leaves a filled cache as it found it and
    makes no discovery call; it makes one, and fills the cache from it,
    only when it finds the cache empty and goes through. *)
Theorem login_rediscovers_only_when_cache_empty fuel s :
  let s' := snd (login dev fuel s) in
  let discoveries tr := invocations "GetDeviceSettings" tr in
  (actions_truthy (actions (client s)) = true ->
   actions (client s') = actions (client s)
   /\ discoveries (trace s') = discoveries (trace s))
  /\ (actions_truthy (actions (client s)) = false ->
      fst (login dev fuel s) = Val tt ->
      actions_truthy (actions (client s')) = true
      /\ (discoveries (trace s) < discoveries (trace s'))%nat).
Proof.
  intros s' discoveries. split.
  - apply login_keeps_cache.
  - intros Hempty Hval.
    assert (Hfull : actions_truthy (actions (client s')) = true).
    { apply (login_val_cache fuel s). subst s'.
      destruct (login dev fuel s) as [r s1]. simpl in Hval.
      subst r. by destruct s1. }
    split; [done|].
    apply (login_discovers fuel s). intros Heq. fold s' in Heq.
    rewrite Heq in Hfull. congruence.
Qed.

(** C8 (amended).  [device_actions] does not look at the cache: in a
    session every invocation starts with a [GetDeviceSettings] request,
    so two invocations make at least two. *)
Theorem device_actions_calls_every_time n m s :
  PyStr.truthy (_private_key (client s)) = true ->
  let s1 := snd (device_actions dev (S n) s) in
  let s2 := snd (device_actions dev (S m) s1) in
  (exists rq out evs,
      trace s1 = (trace s ++ EvInvoke rq out :: evs)%list
      /\ rq_action rq = "GetDeviceSettings")
  /\ (exists rq out evs,
        trace s2 = (trace s1 ++ EvInvoke rq out :: evs)%list
        /\ rq_action rq = "GetDeviceSettings")
  /\ (invocations "GetDeviceSettings" (trace s) + 2
      <= invocations "GetDeviceSettings" (trace s2))%nat.
Proof.
  assert (Hfirst : forall k (s0 : state W),
    PyStr.truthy (_private_key (client s0)) = true ->
    exists rq out evs,
      trace (snd (device_actions dev (S k) s0))
      = (trace s0 ++ EvInvoke rq out :: evs)%list
      /\ rq_action rq = "GetDeviceSettings").
  { intros k s0 Hk.
    assert (Hx : extends
              (snd (_call_method dev "GetDeviceSettings" [] [] s0))
              (snd (device_actions dev (S k) s0))).
    { unfold device_actions, device_actions_.
      apply (after_bind extends).
      - simpl call. unfold call_body.
        rewrite (bind_val _ _ _ _ _ (ensure_login_session _ _ _ Hk)).
        apply (after_bind extends).
        + apply (after_catch extends).
          * apply (after_bind extends); [reflexivity|intros res].
            apply (preserves_if extends); apply (preserves_ret extends).
          * intros e h. destruct (is_session_signal e); intros [= <-].
            apply (preserves_ret extends).
        + intros [res|]; [apply (preserves_ret extends)|].
          apply relogin_and_retry_extends.
      - intros resp.
        apply (preserves_bind extends); [apply (preserves_lift extends)|].
        intros sa. destruct (SimpleXML.children sa);
          [apply (preserves_ret extends)|apply (preserves_raise extends)]. }
    destruct (_call_method_spec dev "GetDeviceSettings" [] [] s0) as [Hc _].
    rewrite Hc in Hx. destruct Hx as (_ & _ & _ & _ & evs & ->).
    eexists _, _, evs. simpl. by rewrite <- app_assoc. }
  intros Hk s1 s2.
  assert (Hk1 : PyStr.truthy (_private_key (client s1)) = true).
  { by apply (device_actions_extends dev (S n) s). }
  destruct (Hfirst n s Hk) as (rq & out & evs & H1 & Ha).
  destruct (Hfirst m s1 Hk1) as (rq' & out' & evs' & H2 & Ha').
  change (trace s1 = (trace s ++ EvInvoke rq out :: evs)%list) in H1.
  change (trace s2 = (trace s1 ++ EvInvoke rq' out' :: evs')%list) in H2.
  clearbody s2. clearbody s1.
  split; [by eexists _, _, _|]. split; [by eexists _, _, _|].
  rewrite H2, H1.
  rewrite !invocations_app.
  change (EvInvoke rq out :: evs) with ([EvInvoke rq out] ++ evs)%list.
  change (EvInvoke rq' out' :: evs') with ([EvInvoke rq' out'] ++ evs')%list.
  rewrite !invocations_app.
  pose proof (invocations_snoc_invoke "GetDeviceSettings" [] rq out) as E1.
  pose proof (invocations_snoc_invoke "GetDeviceSettings" [] rq' out') as E2.
  simpl in E1, E2. rewrite E1, E2, Ha, Ha'. simpl. lia.
Qed.

End Cache.

(** ** Runs *)

Module Runs.
Import Examples.

(** The digests of the model are those of the library: RFC 2202, test
    case 2, and the key of the specification's end-to-end scenario. *)
Example hmac_rfc2202 :
  _hmac "Jefe" "what do ya want for nothing?"
  = "750C783E6AB0B503EAA86E310A5DB738".
Proof. vm_compute. reflexivity. Qed.

Example hmac_scenario :
  _hmac "XYZsecret" "abc123" = "945DB6D9F59B962E7D8C5F5F12555156"
  /\ _hmac "945DB6D9F59B962E7D8C5F5F12555156" "abc123"
     = "E08444A2DEB07A03354AF5FF324ACB83".
Proof. split; vm_compute; reflexivity. Qed.

(** The end-to-end scenario of the specification: the handshake with
    the right password goes through and discovers the actions. *)
Example login_scenario :
  let r := login hnap 2 (start fresh_client sensor) in
  fst r = Val tt
  /\ logged_in (client (snd r)) = true
  /\ _private_key (client (snd r)) = Some "945DB6D9F59B962E7D8C5F5F12555156"
  /\ actions (client (snd r))
     = Some ["GetDeviceSettings"; "GetFirmwareStatus"; "GetLatestDetection"]
  /\ outline (trace (snd r))
     = [("login()", true); ("Login", true); ("Login", true);
        ("GetDeviceSettings", true)].
Proof. vm_compute. repeat split. Qed.

(** C1, as stated, fails when the handshake is refused: the first
    attempt raises [URLError], [login()] raises [AuthenticationError],
    and the call is never issued a second time. *)
Lemma call_not_reissued_when_login_fails :
  let r := call scripted_device 3 "GetFirmwareStatus" [] [] rejected in
  fst (_call_method scripted_device "GetFirmwareStatus" [] [] rejected)
  = Raise URLError
  /\ is_session_signal URLError = true
  /\ fst r = Raise (AuthenticationError "Incorrect username or password")
  /\ outline (trace (snd r))
     = [("GetFirmwareStatus", false); ("login()", true);
        ("Login", true); ("Login", true)]
  /\ invocations "GetFirmwareStatus" (trace (snd r)) = 1%nat.
Proof. vm_compute. repeat split. Qed.

(** C1 (amended) on an expired session: the call fails, the handshake
    goes through, the call is issued again and its reply returned. *)
Lemma call_retries_once_after_signal_witness :
  let s2 := snd (_call_method scripted_device "GetFirmwareStatus" [] [] expired) in
  (call scripted_device 3 "GetFirmwareStatus" [] [] expired
   = match login scripted_device 2 s2 with
     | (Val _, s3) => _call_method scripted_device "GetFirmwareStatus" [] [] s3
     | (Raise e', s3) => (Raise e', s3)
     | (OutOfFuel, s3) => (OutOfFuel, s3)
     end
   /\ forall s3, exists rq out,
       trace (snd (_call_method scripted_device "GetFirmwareStatus" [] [] s3))
       = (trace s3 ++ [EvInvoke rq out])%list
       /\ rq_action rq = "GetFirmwareStatus" /\ rq_args rq = []
       /\ rq_kwargs rq = []
       /\ fst (_call_method scripted_device "GetFirmwareStatus" [] [] s3)
          = match out with inl e' => Raise e' | inr r => Val r end)
  /\ fst (call scripted_device 3 "GetFirmwareStatus" [] [] expired)
     = Val (status_reply "GetFirmwareStatus" "OK")
  /\ outline (trace (snd (call scripted_device 3 "GetFirmwareStatus" [] []
                            expired)))
     = [("GetFirmwareStatus", false); ("login()", true);
        ("Login", true); ("Login", true); ("GetFirmwareStatus", true)].
Proof.
  intros s2. split; [|vm_compute; split; reflexivity].
  refine (call_retries_once_after_signal scripted_device 2
            "GetFirmwareStatus" [] [] expired expired URLError s2 _ _ _ _).
  - discriminate.
  - vm_compute. reflexivity.
  - vm_compute. reflexivity.
  - reflexivity.
Defined.

(** C2, as stated, fails on an HTML page: the page is not returned; the
    client logs in and calls again, and returns the second reply. *)
Lemma call_html_page_not_returned :
  let r := call scripted_device 3 "GetFirmwareStatus" [] [] html in
  SimpleXML.contains "body" html_page = true
  /\ fst r = Val (status_reply "GetFirmwareStatus" "OK")
  /\ fst r <> Val html_page
  /\ outline (trace (snd r))
     = [("GetFirmwareStatus", true); ("login()", true);
        ("Login", true); ("Login", true); ("GetFirmwareStatus", true)].
Proof. vm_compute. repeat split. discriminate. Qed.

(** C2 (amended) on an HTML page, which forces a login, and on an
    ordinary reply, which is returned as it is. *)
Lemma call_reply_with_body_forces_login_witness :
  let s2 := snd (_call_method scripted_device "GetFirmwareStatus" [] [] html) in
  let s := start session_client sensor in
  call scripted_device 3 "GetFirmwareStatus" [] [] html
  = match login scripted_device 2 s2 with
    | (Val _, s3) => _call_method scripted_device "GetFirmwareStatus" [] [] s3
    | (Raise e', s3) => (Raise e', s3)
    | (OutOfFuel, s3) => (OutOfFuel, s3)
    end
  /\ call hnap 3 "GetFirmwareStatus" [] [] s
     = (Val (status_reply "GetFirmwareStatus" "OK"),
        snd (_call_method hnap "GetFirmwareStatus" [] [] s)).
Proof.
  intros s2 s. split.
  - refine (proj2 (call_reply_with_body_forces_login scripted_device 2
                     "GetFirmwareStatus" [] [] html html html_page s2 _ _)
                  _ _).
    + vm_compute. reflexivity.
    + vm_compute. reflexivity.
    + reflexivity.
    + discriminate.
  - refine (proj1 (call_reply_with_body_forces_login hnap 2
                     "GetFirmwareStatus" [] [] s s
                     (status_reply "GetFirmwareStatus" "OK")
                     (snd (_call_method hnap "GetFirmwareStatus" [] [] s))
                     _ _) _).
    + vm_compute. reflexivity.
    + vm_compute. reflexivity.
    + reflexivity.
Defined.

(** C3, as stated, fails on a re-login: the first ['Login'] request of
    the second handshake (the third event) carries the cookie of the
    first and a token. *)
Lemma relogin_request_has_auth_headers :
  let r := call scripted_device 3 "GetFirmwareStatus" [] [] expired in
  fst (_call_method scripted_device "GetFirmwareStatus" [] [] expired)
  = Raise URLError
  /\ outline (trace (snd r))
  = [("GetFirmwareStatus", false); ("login()", true);
     ("Login", true); ("Login", true); ("GetFirmwareStatus", true)]
  /\ map (header "Cookie") (trace (snd r))
     = [Some "uid=c00kie"; None; Some "uid=c00kie";
        Some "uid=c2"; Some "uid=c2"]
  /\ map (header "HNAP_AUTH") (trace (snd r))
     = [Some "F4F2B9E8527F1409E0813511F334B3D0 100"; None;
        Some "6C627C4093E962967357E7BFE941EAC3 101";
        Some "4D884BF53061DC3712861264111511D9 102";
        Some "9D710F557193E00A7F9A4480ABA45514 103"].
Proof. vm_compute. repeat split. Qed.

(** C3 (amended) on an expired session, and on the first handshake of a
    client without secrets. *)
Lemma relogin_request_carries_stored_secrets_witness :
  let s2 := snd (_call_method scripted_device "GetFirmwareStatus" [] [] expired) in
  let s0 := start fresh_client (Scripted 100 (tl script_expired)) in
  (exists rq out evs,
      trace (snd (call scripted_device 3 "GetFirmwareStatus" [] [] expired))
      = (trace s2 ++ EvLogin :: EvInvoke rq out :: evs)%list
      /\ rq_action rq = "Login"
      /\ rq_kwargs rq = login_request_kwargs session_client
      /\ rq_headers rq
         = <["HNAP_AUTH" :=
               _hmac (_hmac "XYZsecret" "abc123") (auth_message 101 "Login")
               ++ " " ++ PyStr.dec 101]>
             (<["Cookie" := "uid=c00kie"]> ∅))
  /\ (exists rq out evs,
        trace (snd (login scripted_device 2 s0))
        = (trace s0 ++ EvLogin :: EvInvoke rq out :: evs)%list
        /\ rq_action rq = "Login"
        /\ rq_kwargs rq = login_request_kwargs fresh_client
        /\ rq_headers rq = ∅).
Proof.
  intros s2 s0.
  destruct (relogin_request_carries_stored_secrets scripted_device 1
              "GetFirmwareStatus" [] [] expired URLError s2
              (_hmac "XYZsecret" "abc123") "c00kie") as [Hold Hfresh].
  - reflexivity.
  - vm_compute. discriminate.
  - reflexivity.
  - discriminate.
  - discriminate.
  - vm_compute. reflexivity.
  - reflexivity.
  - split; [exact Hold|]. apply (Hfresh s0); reflexivity.
Defined.

(** C4 on the end-to-end scenario of the specification. *)
Lemma login_stores_hmac_private_key_witness :
  let s1 := snd (call hnap 2 "Login" [] (login_request_kwargs fresh_client)
                   (enter_login (start fresh_client sensor))) in
  let key :=
    PyStr.upper
      (PyStr.hex (HMAC.hmac_md5 (PyStr.encode ("XYZ" ++ "secret"))
                                (PyStr.encode "abc123"))) in
  let s2 := State (set_private_key key (set_cookie "c00kie" (client s1)))
                  (world s1) (trace s1) in
  (login hnap 2 (start fresh_client sensor)
   = bind (login_second_stage (call hnap 2) "abc123" key)
       (fun _ => modify_client (set_logged_in true)) s2
   /\ _private_key (client s2) = Some key
   /\ String.length key = 32%nat
   /\ Forall upper_hex_digit (list_ascii_of_string key))
  /\ key = "945DB6D9F59B962E7D8C5F5F12555156".
Proof.
  intros s1 key s2. split; [|vm_compute; reflexivity].
  refine (login_stores_hmac_private_key hnap 2 (start fresh_client sensor)
            (challenge_reply "abc123" "XYZ" "c00kie") s1
            (Elem "LoginResponse" EmptyString
               [leaf "LoginResult" "OK"; leaf "Challenge" "abc123";
                leaf "Cookie" "c00kie"; leaf "PublicKey" "XYZ"])
            (leaf "Challenge" "abc123") (leaf "PublicKey" "XYZ")
            (leaf "Cookie" "c00kie") _ _ _ _ _).
  - vm_compute. reflexivity.
  - reflexivity.
  - reflexivity.
  - reflexivity.
  - reflexivity.
Defined.

(** C5 on a call made in the middle of a session. *)
Lemma per_call_headers_witness :
  exists rq out,
    trace (snd (_call_method hnap "GetFirmwareStatus" []
                  [("ModuleID", VInt 1)] (start session_client sensor)))
    = [EvInvoke rq out]
    /\ rq_action rq = "GetFirmwareStatus"
    /\ rq_headers rq
       = <["HNAP_AUTH" :=
             PyStr.upper
               (PyStr.hex
                  (HMAC.hmac_md5
                     (PyStr.encode (_hmac "XYZsecret" "abc123"))
                     (PyStr.encode
                        (PyStr.dec 1500000000 ++ dquote ++ ACTION_BASE_URL
                         ++ "GetFirmwareStatus" ++ dquote))))
             ++ " " ++ PyStr.dec 1500000000]>
           (<["Cookie" := "uid=c00kie"]> ∅).
Proof.
  refine (per_call_headers hnap "GetFirmwareStatus" [] [("ModuleID", VInt 1)]
            (start session_client sensor)
            (_hmac "XYZsecret" "abc123") "c00kie" _ _ _ _).
  - reflexivity.
  - vm_compute. discriminate.
  - reflexivity.
  - discriminate.
Defined.

(** C7, as stated, fails on a re-login: the session expires, the
    handshake goes through without a discovery call, and the cache
    still holds the two actions of the earlier session. *)
Lemma relogin_keeps_stale_cache :
  let r := call scripted_device 3 "GetFirmwareStatus" [] [] expired in
  outline (trace (snd r))
  = [("GetFirmwareStatus", false); ("login()", true);
     ("Login", true); ("Login", true); ("GetFirmwareStatus", true)]
  /\ fst r = Val (status_reply "GetFirmwareStatus" "OK")
  /\ logged_in (client (snd r)) = true
  /\ _cookie (client (snd r)) = Some "c2"
  /\ actions (client (snd r)) = Some ["GetDeviceSettings"; "GetFirmwareStatus"]
  /\ actions (client (snd r)) = actions session_client
  /\ invocations "GetDeviceSettings" (trace (snd r)) = 0%nat.
Proof. vm_compute. repeat split. Qed.

(** C7 (amended) on a handshake with a filled cache and on one with an
    empty cache. *)
Lemma login_rediscovers_only_when_cache_empty_witness :
  (let s' := snd (login hnap 2 (start session_client sensor)) in
   actions (client s') = actions session_client
   /\ invocations "GetDeviceSettings" (trace s') = 0%nat)
  /\ (let s' := snd (login hnap 2 (start fresh_client sensor)) in
      actions_truthy (actions (client s')) = true
      /\ (0 < invocations "GetDeviceSettings" (trace s'))%nat).
Proof.
  split.
  - refine (proj1 (login_rediscovers_only_when_cache_empty hnap 2
                     (start session_client sensor)) _).
    reflexivity.
  - refine (proj2 (login_rediscovers_only_when_cache_empty hnap 2
                     (start fresh_client sensor)) _ _).
    + reflexivity.
    + vm_compute. reflexivity.
Defined.

(** C8, as stated, fails: after a handshake that has filled the cache,
    two invocations of [device_actions] make two more
    [GetDeviceSettings] requests. *)
Lemma device_actions_twice_calls_twice :
  let s1 := snd (login hnap 2 (start fresh_client sensor)) in
  let r2 := device_actions hnap 1 s1 in
  let r3 := device_actions hnap 1 (snd r2) in
  actions_truthy (actions (client s1)) = true
  /\ invocations "GetDeviceSettings" (trace s1) = 1%nat
  /\ fst r2 = fst r3
  /\ invocations "GetDeviceSettings" (trace (snd r3)) = 3%nat
  /\ outline (trace (snd r3))
     = [("login()", true); ("Login", true); ("Login", true);
        ("GetDeviceSettings", true); ("GetDeviceSettings", true);
        ("GetDeviceSettings", true)].
Proof. vm_compute. repeat split. Qed.

(** C8 (amended) on two invocations in the middle of a session. *)
Lemma device_actions_calls_every_time_witness :
  let s := start session_client sensor in
  let s1 := snd (device_actions hnap 1 s) in
  let s2 := snd (device_actions hnap 1 s1) in
  (exists rq out evs,
      trace s1 = (trace s ++ EvInvoke rq out :: evs)%list
      /\ rq_action rq = "GetDeviceSettings")
  /\ (exists rq out evs,
        trace s2 = (trace s1 ++ EvInvoke rq out :: evs)%list
        /\ rq_action rq = "GetDeviceSettings")
  /\ (invocations "GetDeviceSettings" (trace s) + 2
      <= invocations "GetDeviceSettings" (trace s2))%nat.
Proof.
  refine (device_actions_calls_every_time hnap 0 0
            (start session_client sensor) _).
  vm_compute. reflexivity.
Defined.

(** C9 on a client whose password the device refuses. *)
Lemma call_without_session_logs_in_first_witness :
  (exists evs,
      trace (snd (call hnap 3 "GetFirmwareStatus" [] [] stranger))
      = (trace stranger ++ EvLogin :: evs)%list)
  /\ call hnap 3 "GetFirmwareStatus" [] [] stranger
     = (Raise (AuthenticationError "Incorrect username or password"),
        snd (login hnap 2 stranger))
  /\ invocations "GetFirmwareStatus" (trace (snd (login hnap 2 stranger)))
     = 0%nat.
Proof.
  destruct (call_without_session_logs_in_first hnap 2 "GetFirmwareStatus"
              [] [] stranger eq_refl ltac:(discriminate)) as [Htrace Hraise].
  split; [exact Htrace|]. split; [|vm_compute; reflexivity].
  apply Hraise. vm_compute. reflexivity.
Defined.

(** C10 on the three actions of the sensor. *)
Lemma device_actions_extracts_names_witness :
  exists names,
    device_actions hnap 1 (start session_client sensor)
    = (Val names,
       snd (call hnap 1 "GetDeviceSettings" [] [] (start session_client sensor)))
    /\ names = ["GetDeviceSettings"; "GetFirmwareStatus"; "GetLatestDetection"].
Proof.
  destruct (device_actions_extracts_names hnap 1 (start session_client sensor)
              (settings_reply
                 (map (String.append ACTION_BASE_URL) (hd_actions sensor)))
              (snd (call hnap 1 "GetDeviceSettings" [] []
                      (start session_client sensor)))
              (Elem "SOAPActions" EmptyString
                 (map (leaf "string")
                    (map (String.append ACTION_BASE_URL) (hd_actions sensor))))
              (map (leaf "string")
                 (map (String.append ACTION_BASE_URL) (hd_actions sensor))))
    as (names & Hrun & Hlen & Hnames).
  - vm_compute. reflexivity.
  - reflexivity.
  - reflexivity.
  - exists names. split; [exact Hrun|].
    destruct names as [|n0 [|n1 [|n2 [|]]]]; try discriminate Hlen.
    destruct (Hnames 0%nat _ eq_refl) as (x0 & [= <-] & H0 & _).
    destruct (Hnames 1%nat _ eq_refl) as (x1 & [= <-] & H1 & _).
    destruct (Hnames 2%nat _ eq_refl) as (x2 & [= <-] & H2 & _).
    rewrite (H0 "http://purenetworks.com/HNAP1" "GetDeviceSettings" eq_refl),
            (H1 "http://purenetworks.com/HNAP1" "GetFirmwareStatus" eq_refl),
            (H2 "http://purenetworks.com/HNAP1" "GetLatestDetection" eq_refl);
      [reflexivity|..]; vm_compute; intuition discriminate.
Defined.

End Runs.

(** * More of the client *)

(** ** Digests and action names, for every input *)

Lemma upper_char_idempotent a :
  PyStr.upper_char (PyStr.upper_char a) = PyStr.upper_char a.
Proof. destruct a as [[] [] [] [] [] [] [] []]; reflexivity. Qed.

Lemma upper_idempotent s : PyStr.upper (PyStr.upper s) = PyStr.upper s.
Proof.
  induction s as [|a s IH]; simpl; [done|].
  by rewrite upper_char_idempotent, IH.
Qed.

(** X1.  Whatever the key and the message, [_hmac] gives 32 characters,
    each an upper-case hexadecimal digit; upper-casing it again changes
    nothing. *)
Theorem _hmac_is_32_upper_hex_digits key message :
  String.length (_hmac key message) = 32%nat
  /\ Forall upper_hex_digit (list_ascii_of_string (_hmac key message))
  /\ PyStr.upper (_hmac key message) = _hmac key message.
Proof.
  split; [apply _hmac_length|]. split; [apply _hmac_upper_hex|].
  unfold _hmac. apply upper_idempotent.
Qed.

Lemma last_slash_split s :
  ~ In "/"%char (list_ascii_of_string s)
  \/ exists prefix last,
      s = prefix ++ String "/" last
      /\ ~ In "/"%char (list_ascii_of_string last).
Proof.
  induction s as [|a s [IH|(prefix & last & -> & Hlast)]].
  - left. simpl. tauto.
  - destruct (Ascii.eqb_spec a "/"%char) as [->|Hne].
    + right. by exists EmptyString, s.
    + left. simpl. intros [?|?]; [congruence|tauto].
  - right. by exists (String a prefix), last.
Qed.

(** X2.  For every string, [_extract] returns its longest suffix without
    a ['/']: the result holds no ['/'], the string is a prefix followed by
    the result, and the prefix is empty or ends with ['/'].  Extracting
    twice is extracting once. *)
Theorem _extract_is_the_part_after_the_last_slash url :
  ~ In "/"%char (list_ascii_of_string (_extract url))
  /\ (exists prefix,
         url = prefix ++ _extract url
         /\ (prefix = EmptyString \/ exists p, prefix = p ++ "/"))
  /\ _extract (_extract url) = _extract url.
Proof.
  destruct (last_slash_split url) as [Hn|(prefix & last & -> & Hlast)].
  - rewrite !(_extract_whole url Hn). split; [done|]. split; [|done].
    exists EmptyString. split; [done|by left].
  - change (prefix ++ String "/" last) with (prefix ++ "/" ++ last).
    rewrite (_extract_last prefix last Hlast).
    split; [done|]. split; [|by apply _extract_whole].
    exists (prefix ++ "/"). split; [|right; by exists prefix].
    clear. induction prefix as [|a prefix IH]; [done|].
    change (String a (prefix ++ "/" ++ last)
            = String a ((prefix ++ "/") ++ last)).
    by f_equal.
Qed.

Section MoreClient.
Context {W : Type} (dev : Device W).
Implicit Types s : state W.

(** ** What [call] and [login] leave alone *)

(** X3.  No call, handshake or discovery changes the address, the user
    name or the password of the client. *)
Theorem credentials_never_change fuel method args kwargs s :
  let same (s' : state W) :=
    address (client s') = address (client s)
    /\ username (client s') = username (client s)
    /\ password (client s') = password (client s) in
  same (snd (call dev fuel method args kwargs s))
  /\ same (snd (login dev fuel s))
  /\ same (snd (device_actions dev fuel s)).
Proof.
  intros same.
  pose proof (call_extends dev fuel method args kwargs s) as (? & ? & ? & _).
  pose proof (login_extends dev fuel s) as (? & ? & ? & _).
  pose proof (device_actions_extends dev fuel s) as (? & ? & ? & _).
  by repeat split.
Qed.

(** X4.  A client that holds a private key still holds one after any
    call, however the call ends, so that the call after it starts without
    the login of lines 103-105. *)
Theorem later_calls_skip_the_first_login
    fuel method args kwargs n method' s :
  PyStr.truthy (_private_key (client s)) = true ->
  let s1 := snd (call dev fuel method args kwargs s) in
  PyStr.truthy (_private_key (client s1)) = true
  /\ ensure_login (call dev n) method' s1 = (Val tt, s1).
Proof.
  intros Hk s1.
  assert (Hk1 : PyStr.truthy (_private_key (client s1)) = true).
  { by apply (call_extends dev fuel method args kwargs s). }
  split; [done|]. by apply ensure_login_session.
Qed.

(** X5.  An exception of the first attempt that is none of the four
    classes [call] handles is the outcome of the call: there is no login
    and no second attempt, and the trace ends with the one request. *)
Theorem call_propagates_other_exceptions
    n method args kwargs s s1 e s2 :
  ensure_login (call dev n) method s = (Val tt, s1) ->
  _call_method dev method args kwargs s1 = (Raise e, s2) ->
  is_session_signal e = false ->
  call dev (S n) method args kwargs s = (Raise e, s2)
  /\ logins (trace s2) = logins (trace s1)
  /\ invocations method (trace s2) = S (invocations method (trace s1)).
Proof.
  intros Hpre Hfail Hsig. split; [|split].
  - rewrite (call_after_ensure_login _ _ _ _ _ _ _ Hpre).
    apply bind_raise. by apply first_attempt_other.
  - destruct (_call_method_spec dev method args kwargs s1) as [Hc _].
    rewrite Hfail in Hc. injection Hc as _ ->. simpl.
    apply logins_snoc_invoke.
  - pose proof (_call_method_invocations dev method args kwargs s1) as Hn.
    by rewrite Hfail in Hn.
Qed.

End MoreClient.

Section Handshake.
Context {W : Type} (dev : Device W).
Implicit Types s : state W.

(** ** How a handshake ends *)

#[global] Instance keeps_cookie_preorder : PreOrder (@keeps_cookie W).
Proof.
  split; [intros s H; exact H|].
  intros s1 s2 s3 H12 H23 H1. apply H23, H12, H1.
Qed.

Lemma call_keeps_cookie fuel method args kwargs :
  preserves keeps_cookie (call dev fuel method args kwargs).
Proof.
  apply (call_preserves dev keeps_cookie (fun _ => True)).
  - done.
  - intros s H. exact H.
  - intros b s H. exact H.
  - intros ck s _. done.
  - intros key message s H. exact H.
  - intros action s.
    destruct (update_token_client dev action s)
      as [->|(t & w & tok & ->)]; intros H; exact H.
  - intros m a k _ s.
    destruct (transport_trace dev m a k s)
      as (rq & out & w & _ & _ & ->). intros H. exact H.
  - intros n Hcall.
    apply populate_actions_preserves; [apply _| |by auto].
    intros acts s H. exact H.
  - done.
Qed.

(** The second stage respects what [call] and the steps respect. *)
Lemma login_second_stage_respects (R : relation (state W)) `{!PreOrder R}
    fuel challenge key :
  (forall method args kwargs,
      preserves R (call dev fuel method args kwargs)) ->
  (forall acts, preserves R (modify_client (set_actions acts))) ->
  preserves R (login_second_stage (call dev fuel) challenge key).
Proof.
  intros Hcall Hset. apply (preserves_catch R).
  - apply (preserves_bind R); [apply (preserves_get_client R)|].
    intros c. apply (preserves_bind R); [apply Hcall|].
    intros resp. apply (preserves_bind R); [apply (preserves_lift R)|].
    intros result. apply (preserves_if R); [apply (preserves_raise R)|].
    by apply populate_actions_preserves.
  - intros [] k [= <-]. apply (preserves_raise R).
Qed.

Lemma login_second_stage_keeps fuel challenge key :
  preserves extends (login_second_stage (call dev fuel) challenge key)
  /\ preserves keeps_cookie (login_second_stage (call dev fuel) challenge key).
Proof.
  split.
  - apply (login_second_stage_respects extends).
    + intros. apply call_extends.
    + apply set_actions_extends.
  - apply (login_second_stage_respects keeps_cookie).
    + intros. apply call_keeps_cookie.
    + intros acts s H. exact H.
Qed.

(** X6.  A handshake that returns leaves the client logged in, with a
    private key, a cookie and a filled cache of action names. *)
Theorem login_returns_with_a_session fuel s s' :
  login dev fuel s = (Val tt, s') ->
  logged_in (client s') = true
  /\ PyStr.truthy (_private_key (client s')) = true
  /\ _cookie (client s') <> None
  /\ actions_truthy (actions (client s')) = true.
Proof.
  intros Hlogin.
  pose proof (login_val_cache dev fuel s s' Hlogin) as Hcache.
  revert Hlogin. unfold login. rewrite login_unfold. intros H.
  apply bind_val_inv in H as (resp & s1 & _ & H).
  unfold login_with_challenge in H.
  apply bind_val_inv in H as (lr & s2 & _ & H).
  apply bind_val_inv in H as (ch & s3 & _ & H).
  apply bind_val_inv in H as (pk & s4 & _ & H).
  apply bind_val_inv in H as (ck & s5 & _ & H).
  apply bind_val_inv in H as ([] & s6 & Hck & H).
  apply bind_val_inv in H as (c & s7 & Hget & H).
  apply bind_val_inv in H as ([] & s8 & Hkey & H).
  apply bind_val_inv in H as ([] & s9 & Hstage & H).
  injection H as <-. injection Hkey as <-. injection Hget as <- <-.
  injection Hck as <-.
  destruct (login_second_stage_keeps fuel (SimpleXML.str ch)
              (_hmac (SimpleXML.str pk ++
                      password (client (State (set_cookie (SimpleXML.str ck) (client s5)) (world s5) (trace s5))))
                     (SimpleXML.str ch))) as [Hx Hc].
  match type of Hstage with
  | _ ?s0 = _ => specialize (Hx s0); specialize (Hc s0)
  end.
  rewrite Hstage in Hx, Hc. simpl in Hx, Hc.
  destruct Hx as (_ & _ & _ & Hk & _).
  repeat split; simpl; auto using _hmac_truthy.
Qed.

Lemma getattr_error x name e :
  SimpleXML.getattr x name = inl e -> e = AttributeError.
Proof.
  unfold SimpleXML.getattr.
  destruct (SimpleXML.elements_by_tag name x); congruence.
Qed.

(** X7.  When the reply to the first ['Login'] request lacks the
    [LoginResponse] element, or its [Challenge], [PublicKey] or [Cookie],
    [login] raises [AttributeError] in the state the request left:
    neither a cookie nor a private key is stored. *)
Theorem login_reply_without_a_field_raises fuel s resp s1 :
  call dev fuel "Login" [] (login_request_kwargs (client s)) (enter_login s)
  = (Val resp, s1) ->
  (SimpleXML.getattr resp "LoginResponse" = inl AttributeError
   \/ exists lr field,
       SimpleXML.getattr resp "LoginResponse" = inr lr
       /\ In field ["Challenge"; "PublicKey"; "Cookie"]
       /\ SimpleXML.getattr lr field = inl AttributeError) ->
  login dev fuel s = (Raise AttributeError, s1).
Proof.
  intros Hcall Hmiss. unfold login.
  rewrite login_unfold, (bind_val _ _ _ _ _ Hcall).
  unfold login_with_challenge.
  destruct Hmiss as [Hlr|(lr & field & Hlr & Hin & Hf)];
    rewrite Hlr; [reflexivity|].
  unfold bind at 1. simpl.
  destruct (SimpleXML.getattr lr "Challenge") as [e|ch] eqn:Hch.
  { by rewrite (getattr_error _ _ _ Hch). }
  unfold bind at 1. simpl.
  destruct (SimpleXML.getattr lr "PublicKey") as [e|pk] eqn:Hpk.
  { by rewrite (getattr_error _ _ _ Hpk). }
  unfold bind at 1. simpl.
  destruct (SimpleXML.getattr lr "Cookie") as [e|ck] eqn:Hck.
  { by rewrite (getattr_error _ _ _ Hck). }
  simpl in Hin. destruct Hin as [<-|[<-|[<-|[]]]]; congruence.
Qed.

End Handshake.

Section Requests.
Context {W : Type} (dev : Device W).
Implicit Types s : state W.

(** ** The requests of a run *)

#[global] Instance well_formed_run_preorder : PreOrder (@well_formed_run W).
Proof.
  split.
  - intros s Hs. split; [done|]. split; [done|].
    exists []. split; [by rewrite app_nil_r|constructor].
  - intros s1 s2 s3 H12 H23 H1.
    destruct (H12 H1) as (H2 & Ha & evs & Ht & Hf).
    destruct (H23 H2) as (H3 & Ha' & evs' & Ht' & Hf').
    split; [done|]. split; [congruence|].
    exists (evs ++ evs')%list. split; [by rewrite Ht', Ht, app_assoc|].
    apply Forall_app. split; [done|]. by rewrite <- Ha.
Qed.

Local Ltac same_trace :=
  split; [done|]; split; [done|];
  exists []; split; [by rewrite app_nil_r|constructor].

Lemma _client_well_formed c :
  token_signed c ->
  well_formed_request (address c)
    (Request (fst (_client c)) (snd (_client c)) EmptyString [] []).
Proof.
  unfold token_signed, well_formed_request, _client. intros Htok. simpl.
  split; [done|].
  destruct (_cookie c) as [[|a ck]|], (_auth_token c) as [[|b tok]|];
    simpl; rewrite ?lookup_insert_eq, ?lookup_empty;
    try rewrite (lookup_insert_ne _ "HNAP_AUTH" "Cookie") by done;
    rewrite ?lookup_insert_eq, ?lookup_empty.
  all: split; [first [by left | right; by eexists (String a ck)]|].
  all: split;
    [first
       [ by left
       | right; destruct Htok as (key & t & action & -> & ->);
         by exists key, t, action ]|].
  all: intros name Hc Ha;
    by rewrite ?lookup_insert_ne, ?lookup_empty by done.
Qed.

Lemma call_well_formed fuel method args kwargs :
  preserves well_formed_run (call dev fuel method args kwargs).
Proof.
  apply (call_preserves dev well_formed_run (fun _ => True)).
  - done.
  - intros s Hs. split; [done|]. split; [done|].
    exists [EvLogin]. split; [done|]. by repeat constructor.
  - intros b s Hs. same_trace.
  - intros ck s Hs. same_trace.
  - intros key message s Hs. same_trace.
  - intros action s Hs. unfold _update_nauth_token.
    destruct (_private_key (client s)) as [[|a key]|]; try same_trace.
    destruct (now dev (world s)) as [t w]. simpl.
    split; [by exists (String a key), t, action|]. split; [done|].
    exists []. split; [by rewrite app_nil_r|constructor].
  - intros m a k _ s Hs.
    destruct (transport_trace dev m a k s) as (rq & out & w & _ & -> & ->).
    simpl. split; [done|]. split; [done|].
    eexists [_]. split; [done|]. constructor; [|constructor].
    apply (_client_well_formed _ Hs).
  - intros n Hcall.
    apply populate_actions_preserves; [apply _| |by auto].
    intros acts s Hs. same_trace.
  - done.
Qed.

(** X8.  Every request a call makes, its handshakes included, is well
    formed when the client started without a token or with a signed one:
    the location is that of the client's address, the [Cookie] header is
    ["uid="] before a non-empty cookie, the [HNAP_AUTH] header is a token,
    a space and the very time stamp the token signs, and no other header
    is sent. *)
Theorem every_request_is_well_formed fuel method args kwargs s :
  token_signed (client s) ->
  exists evs,
    trace (snd (call dev fuel method args kwargs s)) = (trace s ++ evs)%list
    /\ Forall (well_formed_event (address (client s))) evs.
Proof.
  intros Hs.
  by destruct (call_well_formed fuel method args kwargs s Hs)
    as (_ & _ & evs & Ht & Hf); exists evs.
Qed.

(** *** Which actions a call reaches *)

#[global] Instance silent_on_preorder action : PreOrder (@silent_on W action).
Proof.
  split; [by intros s|]. intros s1 s2 s3 H12 H23. unfold silent_on in *.
  congruence.
Qed.

Lemma call_silent_on fuel method args kwargs action s :
  action <> method -> action <> "Login" -> action <> "GetDeviceSettings" ->
  silent_on action s (snd (call dev fuel method args kwargs s)).
Proof.
  intros Hm Hl Hd.
  apply (call_preserves dev (silent_on action)
           (fun m => m = method \/ m = "Login" \/ m = "GetDeviceSettings")).
  - by right; left.
  - intros s0. unfold silent_on. simpl. apply invocations_snoc_login.
  - by intros b s0.
  - by intros ck s0.
  - by intros key message s0.
  - intros a s0.
    destruct (update_token_client dev a s0) as [->|(t & w & tok & ->)];
      reflexivity.
  - intros m a k Hok s0.
    destruct (transport_trace dev m a k s0) as (rq & out & w & _ & -> & ->).
    unfold silent_on. simpl. rewrite invocations_snoc_invoke. simpl.
    assert (Hne : m <> action) by (destruct Hok as [-> | [-> | ->]]; congruence).
    apply String.eqb_neq in Hne. rewrite Hne. lia.
  - intros n Hcall s0.
    unfold populate_actions, device_actions_, bind, get_client, lift.
    destruct (negb _); [|reflexivity].
    pose proof (Hcall "GetDeviceSettings" [] [] ltac:(auto) s0) as Hd0.
    destruct (call dev n "GetDeviceSettings" [] [] s0) as [[resp| |] s1];
      simpl in *; [|done..].
    destruct (SimpleXML.getattr resp "SOAPActions") as [e|sa]; simpl; [done|].
    by destruct (SimpleXML.children sa).
  - by left.
Qed.

(** X9.  A call makes remote calls for its own method, for ['Login'] and
    for ['GetDeviceSettings'] only: the number of remote calls of any
    other action stays what it was. *)
Theorem call_reaches_three_actions_only fuel method args kwargs action s :
  action <> method -> action <> "Login" -> action <> "GetDeviceSettings" ->
  invocations action (trace (snd (call dev fuel method args kwargs s)))
  = invocations action (trace s).
Proof. apply call_silent_on. Qed.

End Requests.

(** * The motion sensor *)

Section MotionSensorFacts.
Context {W : Type} (dev : Device W) {F T : Type}.
Variable float_ : string -> exn + F.
Variable fromtimestamp : F -> exn + T.
Implicit Types s : state W.

(** In a session, the first thing a call leaves in the trace is the
    request it was asked for. *)
Lemma call_first_request n method args kwargs s :
  PyStr.truthy (_private_key (client s)) = true ->
  exists rq out evs,
    trace (snd (call dev (S n) method args kwargs s))
    = (trace s ++ EvInvoke rq out :: evs)%list
    /\ rq_action rq = method /\ rq_args rq = args /\ rq_kwargs rq = kwargs.
Proof.
  intros Hk.
  assert (Hx : extends (snd (_call_method dev method args kwargs s))
                       (snd (call dev (S n) method args kwargs s))).
  { simpl call. unfold call_body.
    rewrite (bind_val _ _ _ _ _ (ensure_login_session _ _ _ Hk)).
    apply (after_bind extends).
    - apply (after_catch extends).
      + apply (after_bind extends); [reflexivity|intros res].
        apply (preserves_if extends); apply (preserves_ret extends).
      + intros e h. destruct (is_session_signal e); intros [= <-].
        apply (preserves_ret extends).
    - intros [res|]; [apply (preserves_ret extends)|].
      apply relogin_and_retry_extends. }
  destruct (_call_method_spec dev method args kwargs s) as [Hc _].
  rewrite Hc in Hx. destruct Hx as (_ & _ & _ & _ & evs & ->).
  eexists _, _, evs. simpl. by rewrite <- app_assoc.
Qed.

Lemma detect_time_state resp path s :
  snd (detect_time float_ fromtimestamp resp path s) = s.
Proof.
  unfold detect_time, bind, lift.
  destruct (fold_left _ path (inr resp)) as [e|x]; simpl; [done|].
  destruct (float_ (SimpleXML.str x)) as [e|t]; simpl; [done|].
  by destruct (fromtimestamp t).
Qed.

Lemma ask_time_state (m : M W xml) path s :
  snd ((let* resp := m in detect_time float_ fromtimestamp resp path) s)
  = snd (m s).
Proof.
  unfold bind. destruct (m s) as [[resp| |] s1]; simpl; [|done..].
  apply detect_time_state.
Qed.

(** X10.  With a filled cache of module actions, [latest_trigger] leaves
    the sensor as it is and makes no [GetModuleSOAPActions] request; in a
    session its first request is the one the cache selects:
    [GetLatestDetection] with the module when the cache lists that
    action, [GetMotionDetectorLogs] for the last entry otherwise. *)
Theorem latest_trigger_asks_what_the_cache_selects n ms s a l :
  _soap_actions ms = Some (a :: l) ->
  let r := latest_trigger dev float_ fromtimestamp (S n) ms s in
  let selected :=
    if existsb (String.eqb "GetLatestDetection") (a :: l)
    then ("GetLatestDetection", latest_detection_kwargs ms)
    else ("GetMotionDetectorLogs", detector_logs_kwargs ms) in
  snd (fst r) = ms
  /\ invocations "GetModuleSOAPActions" (trace (snd r))
     = invocations "GetModuleSOAPActions" (trace s)
  /\ (PyStr.truthy (_private_key (client s)) = true ->
      exists rq out evs,
        trace (snd r) = (trace s ++ EvInvoke rq out :: evs)%list
        /\ rq_action rq = fst selected /\ rq_args rq = []
        /\ rq_kwargs rq = snd selected).
Proof.
  intros Hc r selected. subst r selected.
  unfold latest_trigger. rewrite Hc. cbn [actions_truthy negb].
  cbn iota beta. rewrite Hc.
  destruct (existsb (String.eqb "GetLatestDetection") (a :: l)).
  - pose proof (ask_time_state
                  (call dev (S n) "GetLatestDetection" []
                     (latest_detection_kwargs ms))
                  ["LatestDetectTime"] s) as Hs.
    destruct ((let* resp := call dev (S n) "GetLatestDetection" []
                              (latest_detection_kwargs ms) in _) s)
      as [r2 s2].
    cbn [snd] in Hs. subst s2. cbn [fst snd].
    split; [done|]. split; [by apply (call_silent_on dev)|].
    intros Hk. by apply call_first_request.
  - pose proof (ask_time_state
                  (call dev (S n) "GetMotionDetectorLogs" []
                     (detector_logs_kwargs ms))
                  ["MotionDetectorLogList"; "TimeStamp"] s) as Hs.
    destruct ((let* resp := call dev (S n) "GetMotionDetectorLogs" []
                              (detector_logs_kwargs ms) in _) s)
      as [r2 s2].
    cbn [snd] in Hs. subst s2. cbn [fst snd].
    split; [done|]. split; [by apply (call_silent_on dev)|].
    intros Hk. by apply call_first_request.
Qed.

Lemma _cache_soap_actions_trace n ms s :
  PyStr.truthy (_private_key (client s)) = true ->
  exists rq out evs,
    trace (snd (_cache_soap_actions dev (S n) ms s))
    = (trace s ++ EvInvoke rq out :: evs)%list
    /\ rq_action rq = "GetModuleSOAPActions" /\ rq_args rq = []
    /\ rq_kwargs rq = [("ModuleID", module_id ms)].
Proof.
  intros Hk.
  destruct (call_first_request n "GetModuleSOAPActions" []
              [("ModuleID", module_id ms)] s Hk) as (rq & out & evs & Ht & H).
  exists rq, out, evs. split; [|exact H].
  unfold _cache_soap_actions, soap_actions, soap_actions_.
  destruct (call dev (S n) _ _ _ s) as [[resp| |] s1]; simpl in *; [|done..].
  destruct (SimpleXML.getattr resp "SOAPActions") as [e|sa]; [done|].
  by destruct (SimpleXML.children sa).
Qed.

(** X11.  With an empty cache ([None] or an empty list), in a session,
    [latest_trigger] starts with a [GetModuleSOAPActions] request for its
    module. *)
Theorem latest_trigger_probes_when_the_cache_is_empty n ms s :
  actions_truthy (_soap_actions ms) = false ->
  PyStr.truthy (_private_key (client s)) = true ->
  exists rq out evs,
    trace (snd (latest_trigger dev float_ fromtimestamp (S n) ms s))
    = (trace s ++ EvInvoke rq out :: evs)%list
    /\ rq_action rq = "GetModuleSOAPActions" /\ rq_args rq = []
    /\ rq_kwargs rq = [("ModuleID", module_id ms)].
Proof.
  intros He Hk.
  destruct (_cache_soap_actions_trace n ms s Hk)
    as (rq & out & evs & Ht & H).
  assert (Hx : exists evs', trace (snd (latest_trigger dev float_ fromtimestamp
                                          (S n) ms s))
                            = (trace (snd (_cache_soap_actions dev (S n) ms s))
                               ++ evs')%list).
  { unfold latest_trigger. rewrite He. cbn [negb].
    destruct (_cache_soap_actions dev (S n) ms s) as [[r ms1] s1].
    cbn [snd]. destruct r as [[]| |];
      [|exists []; by rewrite app_nil_r..].
    destruct (_soap_actions ms1) as [cached|];
      [|exists []; by rewrite app_nil_r].
    destruct (existsb _ cached).
    - pose proof (ask_time_state
                    (call dev (S n) "GetLatestDetection" []
                       (latest_detection_kwargs ms1))
                    ["LatestDetectTime"] s1) as Hs.
      pose proof (call_extends dev (S n) "GetLatestDetection" []
                    (latest_detection_kwargs ms1) s1) as (_ & _ & _ & _ & Hev).
      match goal with
      | |- context [let '(r2, s2) := ?run in _] => destruct run as [r2 s2]
      end.
      cbn [snd] in Hs. subst s2. exact Hev.
    - pose proof (ask_time_state
                    (call dev (S n) "GetMotionDetectorLogs" []
                       (detector_logs_kwargs ms1))
                    ["MotionDetectorLogList"; "TimeStamp"] s1) as Hs.
      pose proof (call_extends dev (S n) "GetMotionDetectorLogs" []
                    (detector_logs_kwargs ms1) s1) as (_ & _ & _ & _ & Hev).
      match goal with
      | |- context [let '(r2, s2) := ?run in _] => destruct run as [r2 s2]
      end.
      cbn [snd] in Hs. subst s2. exact Hev. }
  destruct Hx as (evs' & ->). rewrite Ht.
  exists rq, out, (evs ++ evs')%list. split; [|exact H].
  by rewrite <- app_assoc.
Qed.

(** X12.  When the device lists no [Action] entry for the module, the
    probe leaves the cache an empty list, so the next [latest_trigger]
    probes again, and the time is asked with [GetMotionDetectorLogs]. *)
Theorem latest_trigger_without_listed_actions
    fuel ms s resp s1 soap_actions_elem entries :
  actions_truthy (_soap_actions ms) = false ->
  soap_actions dev fuel (module_id ms) s = (Val resp, s1) ->
  SimpleXML.getattr resp "SOAPActions" = inr soap_actions_elem ->
  SimpleXML.children soap_actions_elem = Some entries ->
  Forall (fun x => SimpleXML.tag x <> "Action") entries ->
  let r := latest_trigger dev float_ fromtimestamp fuel ms s in
  _soap_actions (snd (fst r)) = Some []
  /\ actions_truthy (_soap_actions (snd (fst r))) = false
  /\ (fst (fst r), snd r)
     = (let* reply := call dev fuel "GetMotionDetectorLogs" []
                        (detector_logs_kwargs ms) in
        detect_time float_ fromtimestamp reply
          ["MotionDetectorLogList"; "TimeStamp"]) s1.
Proof.
  intros He Hsoap Hsa Hch Hnone r. subst r.
  assert (Hf : List.filter
                 (fun x => String.eqb (SimpleXML.tag x) "Action") entries = []).
  { clear Hch. induction Hnone as [|x entries Hx _ IH]; simpl; [done|].
    apply String.eqb_neq in Hx. by rewrite Hx. }
  unfold latest_trigger, _cache_soap_actions.
  rewrite He, Hsoap, Hsa, Hch, Hf.
  cbn [negb map set_soap_actions _soap_actions module_id existsb
       actions_truthy fst snd].
  change (detector_logs_kwargs (set_soap_actions [] ms))
    with (detector_logs_kwargs ms).
  by destruct ((let* reply := call dev fuel "GetMotionDetectorLogs" []
                                (detector_logs_kwargs ms) in _) s1).
Qed.

(** X13.  When the probe fails (the call raises, the reply has no
    [SOAPActions] element, or that element has no children),
    [latest_trigger] fails in the same way, in the state the probe left:
    the cache stays as it was and the time is not asked. *)
Theorem latest_trigger_fails_as_the_probe_fails fuel ms s e s1 :
  actions_truthy (_soap_actions ms) = false ->
  (soap_actions dev fuel (module_id ms) s = (Raise e, s1)
   \/ (exists resp,
          soap_actions dev fuel (module_id ms) s = (Val resp, s1)
          /\ SimpleXML.getattr resp "SOAPActions" = inl e)
   \/ (exists resp elem,
          soap_actions dev fuel (module_id ms) s = (Val resp, s1)
          /\ SimpleXML.getattr resp "SOAPActions" = inr elem
          /\ SimpleXML.children elem = None /\ e = TypeError)) ->
  latest_trigger dev float_ fromtimestamp fuel ms s = (Raise e, ms, s1).
Proof.
  intros He Hfail. unfold latest_trigger, _cache_soap_actions. rewrite He.
  destruct Hfail as [Hr|[(resp & Hr & Hsa)|(resp & elem & Hr & Hsa & Hch & ->)]];
    rewrite Hr; [done|by rewrite Hsa|by rewrite Hsa, Hch].
Qed.

End MotionSensorFacts.

(** * The water sensor *)

Module WaterFacts.
Import Water.

Lemma timedelta_seconds_range us : 0 <= timedelta_seconds us < 86400.
Proof. unfold timedelta_seconds. apply Z.mod_pos_bound. lia. Qed.

Lemma timedelta_seconds_days us days :
  timedelta_seconds (us + days * 86400000000) = timedelta_seconds us.
Proof.
  unfold timedelta_seconds.
  replace (us + days * 86400000000) with (us + (days * 86400) * 1000000)
    by lia.
  rewrite Z.div_add by lia. apply Z_mod_plus_full.
Qed.

Lemma async_update_is_on ws last_trigger now :
  _on (fst (async_update ws (inr (Some last_trigger)) now))
  = (timedelta_seconds (now - last_trigger) <=? _timeout ws)%Z.
Proof.
  unfold async_update. cbn zeta iota. rewrite Z.leb_antisym.
  by destruct (_timeout ws <? _)%Z, (_on ws) eqn:Hon; cbn; rewrite ?Hon.
Qed.

(** X14.  What an update does: the name and the timeout stay; after a
    failed poll or a poll without a time the state stays; with a time the
    sensor is on exactly when the seconds of the time passed are at most
    the timeout; and a state update is scheduled exactly when the state
    has flipped. *)
Theorem async_update_outcome ws trigger now :
  let ws' := fst (async_update ws trigger now) in
  let scheduled := snd (async_update ws trigger now) in
  _name ws' = _name ws /\ _timeout ws' = _timeout ws
  /\ scheduled = xorb (_on ws) (_on ws')
  /\ _on ws' = match trigger with
               | inr (Some last_trigger) =>
                   (timedelta_seconds (now - last_trigger) <=? _timeout ws)%Z
               | _ => _on ws
               end.
Proof.
  intros ws' scheduled. subst ws' scheduled.
  unfold async_update. destruct trigger as [e|[t|]]; cbn zeta iota.
  - by rewrite xorb_nilpotent.
  - rewrite Z.leb_antisym.
    by destruct (_timeout ws <? _)%Z, (_on ws) eqn:Hon; cbn; rewrite ?Hon.
  - by rewrite xorb_nilpotent.
Qed.

(** X15.  The time passed counts modulo whole days: moving the last
    trigger back by any number of days gives the same update. *)
Theorem async_update_forgets_whole_days ws last_trigger now days :
  async_update ws (inr (Some (last_trigger - days * 86400000000))) now
  = async_update ws (inr (Some last_trigger)) now.
Proof.
  unfold async_update. cbn zeta iota.
  replace (now - (last_trigger - days * 86400000000))
    with (now - last_trigger + days * 86400000000) by lia.
  by rewrite timedelta_seconds_days.
Qed.

(** X16.  Within a day of the last trigger the sensor is on exactly while
    the whole seconds passed are at most the timeout. *)
Theorem async_update_within_a_day ws last_trigger now :
  last_trigger <= now < last_trigger + 86400000000 ->
  is_on (fst (async_update ws (inr (Some last_trigger)) now))
  = ((now - last_trigger) / 1000000 <=? _timeout ws)%Z.
Proof.
  intros Hd. unfold is_on.
  rewrite async_update_is_on.
  unfold timedelta_seconds. rewrite Z.mod_small; [done|].
  split; [apply Z.div_pos; lia|].
  apply Z.div_lt_upper_bound; lia.
Qed.

(** X17.  A last trigger ahead of the clock switches the sensor off: a
    negative difference has its seconds counted from the day before. *)
Theorem async_update_trigger_ahead_of_the_clock ws last_trigger now :
  0 <= _timeout ws ->
  now < last_trigger <= now + (86399 - _timeout ws) * 1000000 ->
  is_on (fst (async_update ws (inr (Some last_trigger)) now)) = false.
Proof.
  intros Ht Hd. unfold is_on.
  rewrite async_update_is_on.
  apply Z.leb_gt. unfold timedelta_seconds.
  set (q := (now - last_trigger) / 1000000).
  assert (Hq : - (86399 - _timeout ws) <= q < 0).
  { unfold q. split.
    - apply Z.div_le_lower_bound; lia.
    - apply Z.div_lt_upper_bound; lia. }
  replace q with (q + 86400 + (-1) * 86400) by lia.
  rewrite Z_mod_plus_full, Z.mod_small; lia.
Qed.

(** X18.  An update with the same poll result and the same clock a second
    time changes nothing and schedules nothing. *)
Theorem async_update_settles ws trigger now :
  async_update (fst (async_update ws trigger now)) trigger now
  = (fst (async_update ws trigger now), false).
Proof.
  unfold async_update.
  destruct trigger as [e|[t|]]; cbn zeta iota; [done| |done].
  destruct (_timeout ws <? _)%Z eqn:Hto, (_on ws) eqn:Hon;
    cbn; rewrite ?Hto, ?Hon; done.
Qed.

(** X19.  With a timeout of 86399 seconds or more the sensor never
    switches off once a poll has given a time. *)
Theorem async_update_never_times_out ws last_trigger now :
  86399 <= _timeout ws ->
  is_on (fst (async_update ws (inr (Some last_trigger)) now)) = true.
Proof.
  intros Ht. unfold is_on.
  rewrite async_update_is_on.
  apply Z.leb_le. pose proof (timedelta_seconds_range (now - last_trigger)).
  lia.
Qed.

End WaterFacts.

(** * Runs of the further facts *)

Module SensorRuns.
Import Examples SensorExamples.

(** X4 on an expired session: after the call, with its handshake, the
    client holds a key and the next call starts at once. *)
Lemma later_calls_skip_the_first_login_witness :
  let s1 := snd (call scripted_device 3 "GetFirmwareStatus" [] [] expired) in
  PyStr.truthy (_private_key (client s1)) = true
  /\ ensure_login (call scripted_device 2) "GetLatestDetection" s1
     = (Val tt, s1).
Proof.
  apply (later_calls_skip_the_first_login scripted_device 3
           "GetFirmwareStatus" [] [] 2 "GetLatestDetection" expired).
  reflexivity.
Defined.

(** X5 on a SOAP fault: it ends the call after one request. *)
Lemma call_propagates_other_exceptions_witness :
  let s2 := snd (_call_method scripted_device "GetFirmwareStatus" [] []
                   fault) in
  call scripted_device 3 "GetFirmwareStatus" [] [] fault
  = (Raise (OtherError "SoapFault"), s2)
  /\ logins (trace s2) = logins (trace fault)
  /\ invocations "GetFirmwareStatus" (trace s2)
     = S (invocations "GetFirmwareStatus" (trace fault)).
Proof.
  intros s2.
  refine (call_propagates_other_exceptions scripted_device 2
            "GetFirmwareStatus" [] [] fault fault (OtherError "SoapFault")
            s2 _ _ _).
  - reflexivity.
  - vm_compute. reflexivity.
  - reflexivity.
Defined.

(** X6 on the handshake of the end-to-end scenario. *)
Lemma login_returns_with_a_session_witness :
  let s' := snd (login hnap 2 (start fresh_client sensor)) in
  logged_in (client s') = true
  /\ PyStr.truthy (_private_key (client s')) = true
  /\ _cookie (client s') <> None
  /\ actions_truthy (actions (client s')) = true.
Proof.
  intros s'.
  apply (login_returns_with_a_session hnap 2 (start fresh_client sensor) s').
  vm_compute. reflexivity.
Defined.

(** X7 on a first reply that holds a result but no challenge. *)
Lemma login_reply_without_a_field_raises_witness :
  let s1 := snd (call scripted_device 2 "Login" []
                   (login_request_kwargs (client no_challenge))
                   (enter_login no_challenge)) in
  login scripted_device 2 no_challenge = (Raise AttributeError, s1).
Proof.
  intros s1.
  apply (login_reply_without_a_field_raises scripted_device 2 no_challenge
           (login_reply "failed") s1).
  - vm_compute. reflexivity.
  - right.
    exists (Elem "LoginResponse" EmptyString [leaf "LoginResult" "failed"]),
      "Challenge".
    split; [reflexivity|]. split; [left; reflexivity|reflexivity].
Defined.

(** X8 on an expired session: the failed request, the two of the
    handshake and the repeated request. *)
Lemma every_request_is_well_formed_witness :
  exists evs,
    trace (snd (call scripted_device 3 "GetFirmwareStatus" [] [] expired))
    = (trace expired ++ evs)%list
    /\ Forall (well_formed_event "192.168.0.20") evs.
Proof.
  apply (every_request_is_well_formed scripted_device 3
           "GetFirmwareStatus" [] [] expired).
  exact I.
Defined.

(** X9 on an expired session: no request for the actions of a module. *)
Lemma call_reaches_three_actions_only_witness :
  invocations "GetModuleSOAPActions"
    (trace (snd (call scripted_device 3 "GetFirmwareStatus" [] [] expired)))
  = invocations "GetModuleSOAPActions" (trace expired).
Proof.
  apply (call_reaches_three_actions_only scripted_device 3
           "GetFirmwareStatus" [] [] "GetModuleSOAPActions" expired);
    discriminate.
Defined.

(** A poll of a sensor that has cached its actions: one request, and the
    time of the reply as a date-time. *)
Example latest_trigger_scenario :
  let r := latest_trigger scripted_device float_of_decimal fromtimestamp_utc
             3 motion_cached detecting in
  fst (fst r) = Val 1500000000000000
  /\ outline (trace (snd r)) = [("GetLatestDetection", true)].
Proof. vm_compute. split; reflexivity. Qed.

(** X10 on a sensor whose cache lists [GetLatestDetection]. *)
Lemma latest_trigger_asks_what_the_cache_selects_witness :
  let r := latest_trigger scripted_device float_of_decimal fromtimestamp_utc
             3 motion_cached detecting in
  snd (fst r) = motion_cached
  /\ invocations "GetModuleSOAPActions" (trace (snd r))
     = invocations "GetModuleSOAPActions" (trace detecting)
  /\ (PyStr.truthy (_private_key (client detecting)) = true ->
      exists rq out evs,
        trace (snd r) = (trace detecting ++ EvInvoke rq out :: evs)%list
        /\ rq_action rq = "GetLatestDetection" /\ rq_args rq = []
        /\ rq_kwargs rq = [("ModuleID", VInt 1)]).
Proof.
  apply (latest_trigger_asks_what_the_cache_selects scripted_device
           float_of_decimal fromtimestamp_utc 2 motion_cached detecting
           "GetLatestDetection" []).
  reflexivity.
Defined.

(** X11 on a new sensor. *)
Lemma latest_trigger_probes_when_the_cache_is_empty_witness :
  exists rq out evs,
    trace (snd (latest_trigger scripted_device float_of_decimal
                  fromtimestamp_utc 3 motion untagged))
    = (trace untagged ++ EvInvoke rq out :: evs)%list
    /\ rq_action rq = "GetModuleSOAPActions" /\ rq_args rq = []
    /\ rq_kwargs rq = [("ModuleID", VInt 1)].
Proof.
  apply (latest_trigger_probes_when_the_cache_is_empty scripted_device
           float_of_decimal fromtimestamp_utc 2 motion untagged);
    reflexivity.
Defined.

(** X12 on a device that lists the actions under another tag. *)
Lemma latest_trigger_without_listed_actions_witness :
  let s1 := snd (soap_actions scripted_device 3 (VInt 1) untagged) in
  let r := latest_trigger scripted_device float_of_decimal fromtimestamp_utc
             3 motion untagged in
  _soap_actions (snd (fst r)) = Some []
  /\ actions_truthy (_soap_actions (snd (fst r))) = false
  /\ (fst (fst r), snd r)
     = (let* reply := call scripted_device 3 "GetMotionDetectorLogs" []
                        (detector_logs_kwargs motion) in
        detect_time float_of_decimal fromtimestamp_utc reply
          ["MotionDetectorLogList"; "TimeStamp"]) s1.
Proof.
  intros s1.
  refine (latest_trigger_without_listed_actions scripted_device
            float_of_decimal fromtimestamp_utc 3 motion untagged
            (module_actions_reply "string" ["GetLatestDetection"]) s1
            (Elem "SOAPActions" EmptyString
               [leaf "string" "GetLatestDetection"])
            [leaf "string" "GetLatestDetection"] _ _ _ _ _).
  - reflexivity.
  - vm_compute. reflexivity.
  - reflexivity.
  - reflexivity.
  - repeat constructor. discriminate.
Defined.

(** X13 on a device whose reply holds no [SOAPActions] element. *)
Lemma latest_trigger_fails_as_the_probe_fails_witness :
  let s := start session_client sensor in
  latest_trigger hnap float_of_decimal fromtimestamp_utc 3 motion s
  = (Raise AttributeError, motion,
     snd (soap_actions hnap 3 (VInt 1) s)).
Proof.
  intros s.
  apply (latest_trigger_fails_as_the_probe_fails hnap float_of_decimal
           fromtimestamp_utc 3 motion s AttributeError).
  - reflexivity.
  - right. left. exists (status_reply "GetModuleSOAPActions" "OK").
    split; vm_compute; reflexivity.
Defined.

(** X16, twenty seconds after the trigger. *)
Lemma async_update_within_a_day_witness :
  Water.is_on (fst (Water.async_update leak (inr (Some noon))
                      (noon + 20000000)))
  = ((noon + 20000000 - noon) / 1000000 <=? Water._timeout leak)%Z.
Proof.
  apply (WaterFacts.async_update_within_a_day leak noon (noon + 20000000)).
  lia.
Defined.

(** X17, with the trigger a second ahead of the clock. *)
Lemma async_update_trigger_ahead_of_the_clock_witness :
  Water.is_on (fst (Water.async_update (Water.set_on true leak)
                      (inr (Some (noon + 1000000))) noon))
  = false.
Proof.
  apply (WaterFacts.async_update_trigger_ahead_of_the_clock
           (Water.set_on true leak) (noon + 1000000) noon);
    change (Water._timeout (Water.set_on true leak)) with 35; lia.
Defined.

(** X19, with a timeout of a whole day. *)
Lemma async_update_never_times_out_witness :
  Water.is_on (fst (Water.async_update
                      (Water.new_water_sensor "Cellar" 86400)
                      (inr (Some noon)) (noon + 86399000000)))
  = true.
Proof.
  apply (WaterFacts.async_update_never_times_out
           (Water.new_water_sensor "Cellar" 86400) noon
           (noon + 86399000000)).
  change (Water._timeout (Water.new_water_sensor "Cellar" 86400)) with 86400.
  lia.
Defined.

End SensorRuns.
